(** * Retrieval engine of the agent platform: a shallow embedding

    The development follows [src/services/document_processor.py] and
    [src/services/rag_service.py].  Python dictionaries used as chunk
    metadata are finite maps from keys to JSON values; the dictionaries a
    caller hands to [ingest_documents] live in a heap of mutable objects,
    so that two positions of the [metadatas] list may denote the same
    dictionary.  The [langchain_pg_embedding] table is a list of rows in
    insertion order.  Exceptions are an explicit outcome, and [try/except]
    is a combinator over a state-and-exception monad. *)

From Stdlib Require Import ZArith QArith.
From stdpp Require Import base option gmap strings list sorting pretty.

Local Open Scope string_scope.

(** ** JSON values held in metadata *)

Inductive pyval :=
  | VStr (s : string)
  | VInt (z : Z).

#[global] Instance pyval_eq_dec : EqDecision pyval.
Proof. solve_decision. Defined.

(** The text that the SQL operator [->>] extracts from a JSONB value. *)
Definition json_text (v : pyval) : string :=
  match v with
  | VStr s => s
  | VInt z => pretty z
  end.

Abbreviation Metadata := (gmap string pyval).

(** ** Exceptions *)

Inductive outcome (A : Type) :=
  | Ok (a : A)
  | Raise (e : string).
Arguments Ok {A} a.
Arguments Raise {A} e.

(** ** LangChain documents *)

Record Document := mkDocument {
  page_content : string;
  metadata : Metadata
}.

Definition set_meta (k : string) (v : pyval) (d : Document) : Document :=
  mkDocument (page_content d) (<[k := v]> (metadata d)).

(** * What the services take from their surroundings

    Library functions and external state are kept abstract: the text
    splitter, the PDF loader with the file system behind it, the clock, the
    generator of random identifiers, the embedding service (one function
    for documents and for queries) and the distance of
    [DistanceStrategy.COSINE]. *)

Class Environment := {
  (** [RecursiveCharacterTextSplitter.split_text] for the configured chunk
      size, overlap and separators *)
  split_text : string → list string;
  (** [PyPDFLoader(path).load()] after the existence check of [load_pdf] *)
  load_pdf : string → outcome (list Document);
  (** [datetime.utcnow().isoformat()] at the [n]-th reading of the clock *)
  utcnow_isoformat : nat → string;
  (** [str(uuid.uuid4())] at the [n]-th draw *)
  uuid4 : nat → string;
  Emb : Type;
  embed : string → Emb;
  cosine_distance : Emb → Emb → Q
}.

(** * Document processor *)

Module DocumentProcessor.
Section processor.
Context {env : Environment}.

(** [TextSplitter.split_documents]: every piece of every document, each
    with its own copy of that document's metadata. *)
Definition split_documents (documents : list Document) : list Document :=
  d ← documents; (λ piece, mkDocument piece (metadata d)) <$> split_text (page_content d).

(** First loop of [chunk_documents]: a running counter. *)
Fixpoint number_chunks (chunk_index : nat) (chunks : list Document) : list Document :=
  match chunks with
  | [] => []
  | chunk :: rest =>
      set_meta "chunk_index" (VInt (Z.of_nat chunk_index)) chunk
        :: number_chunks (S chunk_index) rest
  end.

Definition chunk_documents (documents : list Document) (add_chunk_metadata : bool)
  : list Document :=
  let chunks := split_documents documents in
  if add_chunk_metadata then
    let chunks := number_chunks 0 chunks in
    set_meta "chunk_total" (VInt (Z.of_nat (length chunks))) <$> chunks
  else chunks.

(** Inner loop of [enrich_metadata] over [additional_metadata.items()]. *)
Definition add_items (items : list (string * pyval)) (m : Metadata) : Metadata :=
  foldl (λ acc kv, if decide (kv.1 = "tenant_id") then acc else <[kv.1 := kv.2]> acc)
        m items.

(** [enrich_metadata]; [clock] counts the readings of the clock so far.
    A [None] or empty [additional_metadata] adds nothing. *)
Fixpoint enrich_metadata (documents : list Document) (tenant_id : string)
    (additional_metadata : option (list (string * pyval))) (clock : nat)
  : list Document * nat :=
  match documents with
  | [] => ([], clock)
  | doc :: rest =>
      let m := <["tenant_id" := VStr tenant_id]> (metadata doc) in
      let m := <["ingested_at" := VStr (utcnow_isoformat clock)]> m in
      let m := add_items (default [] additional_metadata) m in
      let '(rest', clock') :=
        enrich_metadata rest tenant_id additional_metadata (S clock) in
      (mkDocument (page_content doc) m :: rest', clock')
  end.

(** [process_pdf]: load, chunk, enrich.  The closing log call divides by
    the number of chunks, so a source without chunks raises. *)
Definition process_pdf (pdf_path tenant_id : string)
    (additional_metadata : option (list (string * pyval))) (clock : nat)
  : outcome (list Document) * nat :=
  match load_pdf pdf_path with
  | Raise e => (Raise e, clock)
  | Ok pages =>
      let chunks := chunk_documents pages true in
      let '(enriched_chunks, clock') :=
        enrich_metadata chunks tenant_id additional_metadata clock in
      match enriched_chunks with
      | [] => (Raise "division by zero", clock')
      | _ => (Ok enriched_chunks, clock')
      end
  end.

(** The texts of the pieces that the splitter makes of a list of
    documents, document after document. *)
Definition pieces (documents : list Document) : list string :=
  d ← documents; split_text (page_content d).

(** A dictionary given by its items; a later item replaces an earlier
    one under the same key. *)
Definition dict (items : list (string * pyval)) : Metadata :=
  foldl (λ acc kv, <[kv.1 := kv.2]> acc) ∅ items.

(** [process_text]: one document holding the text and [metadata or {}],
    chunked and enriched with the same [metadata]. *)
Definition process_text (text tenant_id : string)
    (text_metadata : option (list (string * pyval))) (clock : nat)
  : list Document * nat :=
  let doc := mkDocument text (dict (default [] text_metadata)) in
  let chunks := chunk_documents [doc] true in
  enrich_metadata chunks tenant_id text_metadata clock.

End processor.

(** [get_document_processor]: the module keeps one processor in the
    global [_document_processor]; [DocumentProcessor(chunk_size,
    chunk_overlap)] is the constructor, which may raise. *)
Section singleton.
Context {Processor : Type} (new_processor : Z → Z → outcome Processor).

Definition get_document_processor (chunk_size chunk_overlap : Z)
    (_document_processor : option Processor)
  : outcome Processor * option Processor :=
  match _document_processor with
  | None =>
      match new_processor chunk_size chunk_overlap with
      | Ok p => (Ok p, Some p)
      | Raise e => (Raise e, None)
      end
  | Some p => (Ok p, Some p)
  end.

(** A run of calls, each with its own arguments, threading the global. *)
Fixpoint get_document_processors (calls : list (Z * Z))
    (_document_processor : option Processor)
  : list (outcome Processor) * option Processor :=
  match calls with
  | [] => ([], _document_processor)
  | (chunk_size, chunk_overlap) :: rest =>
      let '(r, g) := get_document_processor chunk_size chunk_overlap _document_processor in
      let '(rs, g') := get_document_processors rest g in
      (r :: rs, g')
  end.

End singleton.
End DocumentProcessor.

(** * Scores *)

(** pgvector's cosine distance is a real number; scores are rationals here
    and compared with [Qle]. *)
#[global] Instance Qle_dec (x y : Q) : Decision (x <= y)%Q.
Proof. unfold Qle. apply _. Defined.

(** * RAG service *)

Module RAGService.
Section service.
Context {env : Environment}.

(** A row of [langchain_pg_embedding]. *)
Record Row := mkRow {
  document : string;
  cmetadata : Metadata;
  embedding : Emb
}.

(** The state the service acts on: the heap of caller-visible metadata
    dictionaries, the table, and the counters of the two external
    sources (random identifiers, clock). *)
Record World := mkWorld {
  heap : gmap nat Metadata;
  next_loc : nat;
  rows : list Row;
  uuids_drawn : nat;
  clock_reads : nat
}.

Definition Py (A : Type) : Type := World → outcome A * World.

#[export] Instance Py_ret : MRet Py := λ A a w, (Ok a, w).
#[export] Instance Py_bind : MBind Py := λ A B f m w,
  match m w with
  | (Ok a, w') => f a w'
  | (Raise e, w') => (Raise e, w')
  end.

Definition raise {A} (e : string) : Py A := λ w, (Raise e, w).

(** [try: body / except Exception as e: handler(str(e))]; what the body
    changed before raising stays changed. *)
Definition try_except {A} (body : Py A) (handler : string → Py A) : Py A := λ w,
  match body w with
  | (Ok a, w') => (Ok a, w')
  | (Raise e, w') => handler e w'
  end.

(** *** Heap and external sources *)

Definition deref (h : gmap nat Metadata) (l : nat) : Metadata := default ∅ (h !! l).

(** [metadata[k] = v] on the dictionary at [l]. *)
Definition setitem (l : nat) (k : string) (v : pyval) : Py unit := λ w,
  (Ok (), mkWorld (<[l := <[k := v]> (deref (heap w) l)]> (heap w)) (next_loc w)
             (rows w) (uuids_drawn w) (clock_reads w)).

(** A new dictionary object holding [m]. *)
Definition alloc (m : Metadata) : Py nat := λ w,
  (Ok (next_loc w), mkWorld (<[next_loc w := m]> (heap w)) (S (next_loc w))
             (rows w) (uuids_drawn w) (clock_reads w)).

Definition utcnow : Py string := λ w,
  (Ok (utcnow_isoformat (clock_reads w)),
   mkWorld (heap w) (next_loc w) (rows w) (uuids_drawn w) (S (clock_reads w))).

Definition new_uuid : Py string := λ w,
  (Ok (uuid4 (uuids_drawn w)),
   mkWorld (heap w) (next_loc w) (rows w) (S (uuids_drawn w)) (clock_reads w)).

(** [[f(x) for x in xs]] with effects, left to right. *)
Fixpoint for_each {A B} (f : A → Py B) (xs : list A) : Py (list B) :=
  match xs with
  | [] => mret []
  | x :: rest => y ← f x; ys ← for_each f rest; mret (y :: ys)
  end.

(** [ids[i]] *)
Definition getitem (ids : list string) (i : nat) : Py string :=
  match ids !! i with
  | Some x => mret x
  | None => raise "list index out of range"
  end.

(** *** The vector store (langchain_postgres over PostgreSQL)

    A database call can fail.  [fault = Some (n, e)] says that the
    database raises [e] once [n] row-level writes of the call are done;
    [None] says that it does not fail. *)

Definition insert_rows (new : list Row) : Py unit := λ w,
  (Ok (), mkWorld (heap w) (next_loc w) (rows w ++ new) (uuids_drawn w) (clock_reads w)).

Definition to_row (doc : Document) : Row :=
  mkRow (page_content doc) (metadata doc) (embed (page_content doc)).

(** [PGVector.add_documents]: embed, then insert.  For an empty list
    the statement sent is an [INSERT] without values, which the table
    refuses (its columns are not nullable), so that the call raises. *)
Definition add_documents (fault : option (nat * string)) (docs : list Document) : Py unit :=
  match fault with
  | None =>
      match docs with
      | [] => raise "null value violates not-null constraint"
      | _ :: _ => insert_rows (to_row <$> docs)
      end
  | Some (n, e) => insert_rows (take n (to_row <$> docs));; raise e
  end.

(** The JSONB filter [{"tenant_id": t}]: the value under the key is the
    string [t]. *)
Definition filter_matches (tenant_id : string) (r : Row) : bool :=
  bool_decide (cmetadata r !! "tenant_id" = Some (VStr tenant_id)).

Definition by_score : relation (Row * Q) := λ a b, (a.2 <= b.2)%Q.

(** [WHERE filter ORDER BY distance ASC LIMIT k] over the table: the
    filter selects the candidates, which are then scored, ordered and
    cut. *)
Definition nearest (tenant_id query : string) (k : Z) (table : list Row)
  : list (Row * Q) :=
  let q := embed query in
  let candidates := filter (λ r, filter_matches tenant_id r = true) table in
  let scored := (λ r, (r, cosine_distance (embedding r) q)) <$> candidates in
  take (Z.to_nat k) (merge_sort by_score scored).

Definition to_result (rs : Row * Q) : Document * Q :=
  (mkDocument (document rs.1) (cmetadata rs.1), rs.2).

(** The largest [LIMIT] of a statement, a 64-bit integer: 2^63 - 1. *)
Definition bigint_max : Z := 9223372036854775807.

(** [PGVector.similarity_search_with_score(query, k, filter)]; [k] is
    the [LIMIT] of the statement.  PostgreSQL rejects a negative
    [LIMIT], and one above [bigint_max] is out of range. *)
Definition similarity_search_with_score (fault : option string) (query : string)
    (k : Z) (tenant_id : string) : Py (list (Document * Q)) := λ w,
  match fault with
  | Some e => (Raise e, w)
  | None =>
      if decide (k < 0)%Z then (Raise "LIMIT must not be negative", w)
      else if decide (bigint_max < k)%Z then (Raise "bigint out of range", w)
      else (Ok (to_result <$> nearest tenant_id query k (rows w)), w)
  end.

(** [cmetadata->>'tenant_id' = :tenant_id AND cmetadata->>'doc_id' = :doc_id] *)
Definition delete_matches (tenant_id doc_id : string) (r : Row) : bool :=
  bool_decide (json_text <$> cmetadata r !! "tenant_id" = Some tenant_id)
  && bool_decide (json_text <$> cmetadata r !! "doc_id" = Some doc_id).

Definition delete_where (tenant_id doc_id : string) : Py unit := λ w,
  (Ok (), mkWorld (heap w) (next_loc w)
             (filter (λ r, delete_matches tenant_id doc_id r = false) (rows w))
             (uuids_drawn w) (clock_reads w)).

Definition db_check (fault : option (nat * string)) (done : nat) : Py unit :=
  match fault with
  | Some (n, e) => if decide (n = done) then raise e else mret ()
  | None => mret ()
  end.

(** *** Results (the dictionaries the service returns) *)

Inductive IngestResult :=
  | IngestSuccess (tenant_id collection_name : string) (document_count : nat)
      (document_ids : list string)
  | IngestFailure (error : string).

Record ResultDocument := mkResult {
  content : string;
  res_metadata : Metadata;
  distance : Q;
  rank : Z
}.

Inductive QueryResult :=
  | QuerySuccess (tenant_id query : string) (documents : list ResultDocument)
      (total_results : nat)
  | QueryFailure (error : string) (documents : list ResultDocument).

Inductive DeleteResult :=
  | DeleteSuccess (tenant_id : string) (deleted_count : nat)
  | DeleteFailure (error : string).

Inductive StatsResult :=
  | StatsSuccess (tenant_id collection_name : string) (document_count : nat)
  | StatsFailure (error : string).

(** [result["success"]] and [result.get("document_count")]. *)
Definition ingest_success (r : IngestResult) : bool :=
  match r with IngestSuccess _ _ _ _ => true | IngestFailure _ => false end.

Definition ingest_count (r : IngestResult) : option nat :=
  match r with IngestSuccess _ _ n _ => Some n | IngestFailure _ => None end.

Definition result_documents (r : QueryResult) : list ResultDocument :=
  match r with QuerySuccess _ _ ds _ => ds | QueryFailure _ ds => ds end.

(** *** Operations *)

Definition collection_name : string := "knowledge_documents".

(** The loop that writes [tenant_id], [doc_id] and [ingested_at] into
    every dictionary of [metadatas]. *)
Fixpoint stamp_metadata (tenant_id : string) (ids : list string) (i : nat)
    (metadatas : list nat) : Py unit :=
  match metadatas with
  | [] => mret ()
  | metadata :: rest =>
      setitem metadata "tenant_id" (VStr tenant_id);;
      doc_id ← getitem ids i;
      setitem metadata "doc_id" (VStr doc_id);;
      now ← utcnow;
      setitem metadata "ingested_at" (VStr now);;
      stamp_metadata tenant_id ids (S i) rest
  end.

(** [[Document(page_content=doc, metadata=meta) for doc, meta in zip(..)]] *)
Definition make_docs (documents : list string) (metadatas : list nat)
  : Py (list Document) := λ w,
  (Ok (zip_with (λ doc meta, mkDocument doc (deref (heap w) meta)) documents metadatas), w).

Definition ingest_documents (tenant_id : string) (documents : list string)
    (metadatas : option (list nat)) (ids : option (list string))
    (fault : option (nat * string)) : Py IngestResult :=
  try_except
    (ids ← match ids with
           | Some ids => mret ids
           | None => for_each (λ _, new_uuid) documents
           end;
     metadatas ← match metadatas with
                 | Some metadatas => mret metadatas
                 | None => for_each (λ _, alloc ∅) documents
                 end;
     stamp_metadata tenant_id ids 0 metadatas;;
     langchain_docs ← make_docs documents metadatas;
     add_documents fault langchain_docs;;
     mret (IngestSuccess tenant_id collection_name (length documents) ids))
    (λ e, mret (IngestFailure ("Failed to ingest documents: " +:+ e))).

Fixpoint format_results (i : nat) (results : list (Document * Q)) : list ResultDocument :=
  match results with
  | [] => []
  | (doc, score) :: rest =>
      mkResult (page_content doc) (metadata doc) score (Z.of_nat i + 1)
        :: format_results (S i) rest
  end.

Definition query_knowledge_base (tenant_id query : string) (top_k : Z)
    (fault : option string) : Py QueryResult :=
  try_except
    (results ← similarity_search_with_score fault query top_k tenant_id;
     let documents := format_results 0 results in
     mret (QuerySuccess tenant_id query documents (length documents)))
    (λ e, mret (QueryFailure ("Failed to query knowledge base: " +:+ e) [])).

Fixpoint delete_loop (tenant_id : string) (document_ids : list string) (done : nat)
    (fault : option (nat * string)) : Py unit :=
  match document_ids with
  | [] => mret ()
  | doc_id :: rest =>
      db_check fault done;;
      delete_where tenant_id doc_id;;
      delete_loop tenant_id rest (S done) fault
  end.

Definition delete_documents (tenant_id : string) (document_ids : list string)
    (fault : option (nat * string)) : Py DeleteResult :=
  try_except
    (db_check fault 0;;
     delete_loop tenant_id document_ids 0 fault;;
     mret (DeleteSuccess tenant_id (length document_ids)))
    (λ e, mret (DeleteFailure ("Failed to delete documents: " +:+ e))).

(** [SELECT COUNT ... WHERE cmetadata->>'tenant_id' = :tenant_id] *)
Definition count_where (tenant_id : string) : Py nat := λ w,
  (Ok (length (filter (λ r, json_text <$> cmetadata r !! "tenant_id" = Some tenant_id)
                 (rows w))), w).

Definition get_collection_name (tenant_id : string) : string := collection_name.

(** [get_collection_stats]; [fault] is the error of a database that does
    not answer. *)
Definition get_collection_stats (tenant_id : string) (fault : option string)
  : Py StatsResult :=
  try_except
    (match fault with Some e => raise e | None => mret () end;;
     count ← count_where tenant_id;
     mret (StatsSuccess tenant_id (get_collection_name tenant_id) count))
    (λ e, mret (StatsFailure ("Failed to get collection stats: " +:+ e))).

(** [self.doc_processor.process_pdf], reading the clock of the world. *)
Definition process_pdf (pdf_path tenant_id : string)
    (additional_metadata : option (list (string * pyval))) : Py (list Document) := λ w,
  let '(r, clock') :=
    DocumentProcessor.process_pdf pdf_path tenant_id additional_metadata
      (clock_reads w) in
  (r, mkWorld (heap w) (next_loc w) (rows w) (uuids_drawn w) clock').

(** The chunks' metadata dictionaries are objects of their own, handed
    on to [ingest_documents] by reference. *)
Definition ingest_pdf (tenant_id pdf_path : string)
    (additional_metadata : option (list (string * pyval)))
    (fault : option (nat * string)) : Py IngestResult :=
  try_except
    (chunks ← process_pdf pdf_path tenant_id additional_metadata;
     let documents := page_content <$> chunks in
     metadatas ← for_each (λ chunk, alloc (metadata chunk)) chunks;
     ingest_documents tenant_id documents (Some metadatas) None fault)
    (λ e, mret (IngestFailure ("Failed to ingest PDF: " +:+ e))).

(** *** Vocabulary of the properties *)

(** The dictionary at [l] names [tenant_id] as its tenant. *)
Definition stamped (tenant_id : string) (h : gmap nat Metadata) (l : nat) : Prop :=
  deref h l !! "tenant_id" = Some (VStr tenant_id).

(** What an ingestion under [tenant_id] leaves in a row it writes. *)
Definition ingested_row (tenant_id : string) (r : Row) : Prop :=
  cmetadata r !! "tenant_id" = Some (VStr tenant_id) ∧
  embedding r = embed (document r).

(** The rows of the table that the filter of a tenant selects. *)
Definition tenant_rows (tenant_id : string) (table : list Row) : list Row :=
  filter (λ r, filter_matches tenant_id r = true) table.

(** The text under a metadata key, as SQL's [->>] reads it. *)
Definition text_at (key : string) (r : Row) : option string :=
  json_text <$> cmetadata r !! key.

(** No deletion statement for one of [doc_ids] selects the row. *)
Definition spared (tenant_id : string) (doc_ids : list string) (r : Row) : bool :=
  forallb (λ doc_id, negb (delete_matches tenant_id doc_id r)) doc_ids.

(** The documents of a successful query. *)
Definition answer (tenant_id query : string) (k : Z) (table : list Row)
  : list ResultDocument :=
  format_results 0 (to_result <$> nearest tenant_id query k table).

(** The dictionary that the caller hands over for the document at
    position [i], as it is before the call; none given counts as empty. *)
Definition caller_metadata (w : World) (metadatas : option (list nat)) (i : nat)
  : Metadata :=
  match metadatas with
  | Some ms => from_option (deref (heap w)) ∅ (ms !! i)
  | None => ∅
  end.

(** Either ingestion entry point, called under [tenant_id] and taking
    the world from [w] to [w']. *)
Inductive ingest_call (tenant_id : string) (w w' : World) : Prop :=
  | call_ingest_documents documents metadatas ids fault r :
      ingest_documents tenant_id documents metadatas ids fault w = (r, w') →
      ingest_call tenant_id w w'
  | call_ingest_pdf pdf_path additional_metadata fault r :
      ingest_pdf tenant_id pdf_path additional_metadata fault w = (r, w') →
      ingest_call tenant_id w w'.

End service.

End RAGService.

(** * Ordering by an integer key

    A stable insertion sort: among equal keys the earlier element stays
    first.  It orders messages by creation time and tools by priority. *)

Section sort_by_key.
Context {A : Type} (key : A → Z).

Fixpoint insert_by_key (x : A) (l : list A) : list A :=
  match l with
  | [] => [x]
  | y :: l' => if decide (key x ≤ key y)%Z then x :: l else y :: insert_by_key x l'
  end.

Definition sort_by_key (l : list A) : list A := foldr insert_by_key [] l.

Definition key_le : relation A := λ a b, (key a ≤ key b)%Z.
End sort_by_key.

(** * Conversation memory *)

Module ConversationMemory.

(** Modelled from the spec: the Message of section 3, "session-scoped,
    ordered by creation time, role in {user, assistant, system}, free-text
    content"; the store is the list of messages in insertion order. *)
Record Message := mkMessage {
  session_id : string;
  role : string;
  content : string;
  created_at : Z
}.

(** Modelled from the spec: the role-tagged messages that [get_history]
    returns (the tests name them HumanMessage, AIMessage, SystemMessage). *)
Inductive BaseMessage :=
  | HumanMessage (content : string)
  | AIMessage (content : string)
  | SystemMessage (content : string).

(** Modelled from the spec: [src/services/conversation_memory.py] is not
    among the sources (only its tests are).  A stored message becomes a
    role-tagged message; "unknown roles are dropped rather than raising". *)
Definition to_langchain (m : Message) : option BaseMessage :=
  if decide (role m = "user") then Some (HumanMessage (content m))
  else if decide (role m = "assistant") then Some (AIMessage (content m))
  else if decide (role m = "system") then Some (SystemMessage (content m))
  else None.

(** Modelled from the spec: "the most recent N", that is the last [n]
    entries of a chronological list. *)
Definition most_recent {A} (n : nat) (l : list A) : list A := drop (length l - n) l.

(** Modelled from the spec: the stored messages that [get_history] reads
    for a session: those of the session, without the system messages
    unless [include_system], "strictly chronological by creation time
    (ties broken by insertion order)", truncated "to the most recent N
    turns (oldest dropped first)". *)
Definition select_history (store : list Message) (sid : string) (max_messages : nat)
    (include_system : bool) : list Message :=
  let own := filter (λ m, session_id m = sid) store in
  let visible := filter (λ m, include_system = true ∨ role m ≠ "system") own in
  most_recent max_messages (sort_by_key created_at visible).

(** Modelled from the spec: [get_history(session_id, max_messages,
    include_system)], the ordered sequence of role-tagged messages. *)
Definition get_conversation_history (store : list Message) (sid : string)
    (max_messages : nat) (include_system : bool) : list BaseMessage :=
  omap to_langchain (select_history store sid max_messages include_system).

(** Modelled from the spec: the roles that [get_history] keeps under a
    given [include_system]. *)
Definition kept_role (include_system : bool) (m : Message) : Prop :=
  role m = "user" ∨ role m = "assistant" ∨ (include_system = true ∧ role m = "system").

#[export] Instance kept_role_dec include_system m :
  Decision (kept_role include_system m).
Proof. unfold kept_role. apply _. Defined.

End ConversationMemory.

(** * Agent executor: tool selection *)

Module AgentExecutor.

(** Modelled from the spec: the part of a ToolSpec that selection reads,
    its priority in the agent's list ("lower = tried first"), the required
    set of its input schema and the tenant's enablement flag. *)
Record ToolSpec := mkTool {
  tool_name : string;
  priority : Z;
  required : list string;
  enabled : bool
}.

(** Modelled from the spec: [src/services/domain_agents.py] is not among
    the sources.  The extracted entities "satisfy that tool's required
    input schema" when every required parameter is present. *)
Definition satisfiable (entities : gmap string string) (t : ToolSpec) : bool :=
  forallb (λ p, bool_decide (is_Some (entities !! p))) (required t).

(** Modelled from the spec: "for each enabled ToolSpec in priority order"
    (lower priority number first). *)
Definition priority_order (tools : list ToolSpec) : list ToolSpec :=
  sort_by_key priority (filter (λ t, enabled t = true) tools).

(** Modelled from the spec: "the first fully satisfiable tool (by
    priority) is invoked"; a tool with a missing parameter "is skipped
    (not retried) and the next-priority tool is tried". *)
Fixpoint first_satisfiable (entities : gmap string string) (tools : list ToolSpec)
  : option ToolSpec :=
  match tools with
  | [] => None
  | t :: rest => if satisfiable entities t then Some t else first_satisfiable entities rest
  end.

(** Modelled from the spec: tool selection of [AgentExecutor.invoke],
    step 2 of the pipeline. *)
Definition select_tool (tools : list ToolSpec) (entities : gmap string string)
  : option ToolSpec :=
  first_satisfiable entities (priority_order tools).

(** Modelled from the spec: the [tool_calls] of the turn, "zero matches
    is a valid outcome [...] with tool_calls = []". *)
Definition tool_calls (tools : list ToolSpec) (entities : gmap string string)
  : list string :=
  match select_tool tools entities with
  | Some t => [tool_name t]
  | None => []
  end.

End AgentExecutor.

(** * A small concrete environment

    Texts are their own embeddings, at distance 0 from themselves and 1
    from every other text; identifiers and timestamps are numbered. *)

Module Sample.
Import RAGService.

#[local] Instance environment : Environment := {|
  split_text s := [s; s +:+ " (cont.)"];
  load_pdf path :=
    if decide (path = "guide.pdf") then
      Ok [mkDocument "page one" {["page" := VInt 0]};
          mkDocument "page two" {["page" := VInt 1]}]
    else Raise ("PDF file not found: " +:+ path);
  utcnow_isoformat n := "2025-11-03T00:00:" +:+ pretty n;
  uuid4 n := "uuid-" +:+ pretty n;
  Emb := string;
  embed s := s;
  cosine_distance a b := if decide (a = b) then 0%Q else 1%Q
|}.

Definition empty_world : World := mkWorld ∅ 0 [] 0 0.

(** The tools of the selection scenario. *)
Definition ToolA : AgentExecutor.ToolSpec := AgentExecutor.mkTool "ToolA" 1 ["x"] true.
Definition ToolB : AgentExecutor.ToolSpec := AgentExecutor.mkTool "ToolB" 2 ["y"] true.

(** A session whose two messages carry a role that no reader knows. *)
Definition strange_session : list ConversationMemory.Message :=
  [ConversationMemory.mkMessage "s1" "unknown_role" "Strange message" 1;
   ConversationMemory.mkMessage "s1" "unknown_role" "Stranger message" 2].

(** Ten messages of one session, as in [test_max_messages_limit]. *)
Definition ten_messages : list ConversationMemory.Message :=
  (λ i : nat,
     ConversationMemory.mkMessage "s1"
       (if Nat.even i then "user" else "assistant")
       ("Message " +:+ pretty i) (Z.of_nat i)) <$> seq 0 10.

(** Tenant A ingests two documents, then tenant B a PDF. *)
Definition world_A : World :=
  (ingest_documents "A" ["alpha"; "beta"] None (Some ["d1"; "d2"]) None empty_world).2.
Definition world_AB : World :=
  (ingest_pdf "B" "guide.pdf" (Some [("source", VStr "guide")]) None world_A).2.

(** The first chunk of tenant A. *)
Definition alpha_chunk : Row := hd (mkRow "" ∅ "") (rows world_A).

(** The same text ingested twice under one tenant. *)
Definition world_dup : World :=
  (ingest_documents "A" ["alpha"; "alpha"] None (Some ["d1"; "d2"]) None empty_world).2.

(** The pages of the guide, and the first chunk made of them. *)
Definition guide_pages : list Document :=
  [mkDocument "page one" {["page" := VInt 0]};
   mkDocument "page two" {["page" := VInt 1]}].
Definition first_chunk : Document :=
  hd (mkDocument "" ∅) (DocumentProcessor.chunk_documents guide_pages true).

(** A caller that holds two dictionaries of its own. *)
Definition caller_world : World :=
  mkWorld {[0 := {["lang" := VStr "vi"]}; 1 := {["lang" := VStr "en"]}]} 2 [] 0 0.

(** Tenant A deletes its first document; what a query for its text
    then finds. *)
Definition world_less : World := (delete_documents "A" ["d1"] None world_AB).2.
Definition beta_result : ResultDocument :=
  hd (mkResult "" ∅ 0 0) (answer "A" "alpha" 5 (rows world_less)).

(** A constructor of processors that refuses an overlap larger than the
    chunk size. *)
Definition new_processor (chunk_size chunk_overlap : Z) : outcome (Z * Z) :=
  if decide (chunk_overlap ≤ chunk_size)%Z then Ok (chunk_size, chunk_overlap)
  else Raise "Got a larger chunk overlap than chunk size".

(** A scanned document: its only page holds no text, and the splitter
    makes no piece of an empty text. *)
#[local] Instance scanned_environment : Environment := {|
  split_text s := if decide (s = "") then [] else [s];
  load_pdf path :=
    if decide (path = "scan.pdf") then Ok [mkDocument "" {["page" := VInt 0]}]
    else Raise ("PDF file not found: " +:+ path);
  utcnow_isoformat n := "2025-11-03T00:00:" +:+ pretty n;
  uuid4 n := "uuid-" +:+ pretty n;
  Emb := string;
  embed s := s;
  cosine_distance a b := if decide (a = b) then 0%Q else 1%Q
|}.

Definition scanned_world : @World scanned_environment := mkWorld ∅ 0 [] 0 0.

End Sample.

(** * Facts about lists *)

Local Open Scope list_scope.
Local Open Scope nat_scope.

Section list_facts.

Lemma filter_all {A} (P : A → Prop) `{∀ x, Decision (P x)} (l : list A) :
  Forall P l → filter P l = l.
Proof. induction 1 as [|x l Hx _ IH]; [done |]. by rewrite filter_cons_True, IH. Qed.

Lemma filter_none {A} (P : A → Prop) `{∀ x, Decision (P x)} (l : list A) :
  Forall (λ x, ¬ P x) l → filter P l = [].
Proof.
  induction 1 as [|x l Hx _ IH]; [done |]. by rewrite filter_cons_False.
Qed.

Lemma StronglySorted_lookup {A} (R : relation A) (l : list A) i j x y :
  StronglySorted R l → i < j → l !! i = Some x → l !! j = Some y → R x y.
Proof.
  intros Hs. revert i j. induction Hs as [|a l Hs IH Hall]; intros i j Hij Hi Hj; [done |].
  destruct j as [|j]; [lia |]. destruct i as [|i]; simpl in *.
  - injection Hi as <-. rewrite Forall_forall in Hall. apply Hall.
    by eapply list_elem_of_lookup_2.
  - eapply IH; [| done..]. lia.
Qed.

Lemma StronglySorted_take {A} (R : relation A) n (l : list A) :
  StronglySorted R l → StronglySorted R (take n l).
Proof. intros Hs. rewrite <- (take_drop n l) in Hs. by apply StronglySorted_app_1_l in Hs. Qed.

Lemma StronglySorted_filter {A} (R : relation A) (P : A → Prop) `{∀ x, Decision (P x)}
    (l : list A) :
  StronglySorted R l → StronglySorted R (filter P l).
Proof.
  induction 1 as [|x l Hs IH Hall]; [constructor |].
  rewrite filter_cons. destruct (decide (P x)); [| done].
  constructor; [done |]. rewrite Forall_forall in Hall. apply Forall_forall.
  intros y [_ Hy]%list_elem_of_filter. by apply Hall.
Qed.

Lemma omap_Forall2 {A B} (f : A → option B) (l : list A) :
  Forall2 (λ a b, f a = Some b) (filter (λ a, is_Some (f a)) l) (omap f l).
Proof.
  induction l as [|x l IH]; [constructor |].
  rewrite filter_cons. destruct (f x) as [b|] eqn:Hx.
  - rewrite decide_True by done. cbn. rewrite Hx. by constructor.
  - rewrite decide_False by (by intros [? ?]). cbn. by rewrite Hx.
Qed.

End list_facts.

(** * Properties of the document processor *)

Section processor_properties.
Context {env : Environment}.
Import DocumentProcessor.

Lemma number_chunks_length i chunks :
  length (number_chunks i chunks) = length chunks.
Proof. revert i. induction chunks as [|c rest IH]; intros i; simpl; [done | by rewrite IH]. Qed.

Lemma number_chunks_lookup i chunks j c :
  number_chunks i chunks !! j = Some c →
  ∃ c0, chunks !! j = Some c0 ∧
        c = set_meta "chunk_index" (VInt (Z.of_nat (i + j))) c0.
Proof.
  revert i j. induction chunks as [|c1 rest IH]; intros i j; simpl; [done |].
  destruct j as [|j]; simpl.
  - intros [= <-]. exists c1. by rewrite Nat.add_0_r.
  - intros H. destruct (IH _ _ H) as (c0 & ? & ->). exists c0.
    split; [done |]. by rewrite Nat.add_succ_r.
Qed.

(** C5.  With chunk metadata enabled, [chunk_documents] keeps one chunk
    per piece of the splitter; the chunk at position [i] of the batch
    has [chunk_index = i], so the indices are exactly 0 .. total-1, and
    every chunk has [chunk_total] equal to the length of the batch. *)
Theorem chunk_documents_index_total (documents : list Document) :
  length (chunk_documents documents true) = length (split_documents documents) ∧
  ∀ i, i < length (chunk_documents documents true) →
    ∃ chunk piece,
      chunk_documents documents true !! i = Some chunk ∧
      split_documents documents !! i = Some piece ∧
      page_content chunk = page_content piece ∧
      metadata chunk !! "chunk_index" = Some (VInt (Z.of_nat i)) ∧
      metadata chunk !! "chunk_total"
        = Some (VInt (Z.of_nat (length (chunk_documents documents true)))).
Proof.
  unfold chunk_documents.
  rewrite length_fmap, number_chunks_length. split; [done |].
  intros i Hi.
  destruct (lookup_lt_is_Some_2 (number_chunks 0 (split_documents documents)) i)
    as [c Hc]; [by rewrite number_chunks_length |].
  destruct (number_chunks_lookup _ _ _ _ Hc) as (piece & Hp & ->).
  eexists _, piece. rewrite list_lookup_fmap, Hc. simpl.
  repeat split; try done; unfold set_meta; simpl.
  - by rewrite lookup_insert_ne, lookup_insert_eq.
  - by rewrite lookup_insert_eq.
Qed.

End processor_properties.

(** * Properties of the RAG service *)

Section rag_properties.
Context {env : Environment}.
Import RAGService.

Implicit Types (w : World) (h : gmap nat Metadata).

(** ** The heap *)

Lemma deref_insert_eq h l (m : Metadata) : deref (<[l := m]> h) l = m.
Proof. unfold deref. by rewrite lookup_insert_eq. Qed.

Lemma deref_insert_ne h l l' (m : Metadata) : l ≠ l' → deref (<[l := m]> h) l' = deref h l'.
Proof. intros. unfold deref. by rewrite lookup_insert_ne. Qed.

Lemma stamped_setitem tenant_id h l l' k v :
  k ≠ "tenant_id" ∨ v = VStr tenant_id →
  stamped tenant_id h l' →
  stamped tenant_id (<[l := <[k := v]> (deref h l)]> h) l'.
Proof.
  unfold stamped. intros Hk Hl'. destruct (decide (l = l')) as [->|Hne].
  - rewrite deref_insert_eq. destruct (decide (k = "tenant_id")) as [->|].
    + destruct Hk as [? | ->]; [done |]. by rewrite lookup_insert_eq.
    + by rewrite lookup_insert_ne.
  - by rewrite deref_insert_ne.
Qed.

Lemma stamp_metadata_spec tenant_id ids i metadatas w r w' :
  stamp_metadata tenant_id ids i metadatas w = (r, w') →
  rows w' = rows w ∧
  (∀ l, stamped tenant_id (heap w) l → stamped tenant_id (heap w') l) ∧
  (r = Ok () → ∀ l, l ∈ metadatas → stamped tenant_id (heap w') l).
Proof.
  revert i w. induction metadatas as [|m rest IH]; intros i w.
  - intros [= <- <-]. split_and!; [done.. |]. intros _ l Hl. by apply elem_of_nil in Hl.
  - cbn [stamp_metadata]. unfold mbind, Py_bind, setitem, getitem, utcnow.
    cbn [heap rows next_loc uuids_drawn clock_reads].
    destruct (ids !! i) as [doc_id|]; cbn.
    + intros Hrun. apply IH in Hrun as (Hrows & Hkeep & Hall). cbn in *.
      assert (Hstep : ∀ l, l = m ∨ stamped tenant_id (heap w) l →
                stamped tenant_id (heap w') l).
      { intros l Hl. apply Hkeep. do 2 (apply stamped_setitem; [by left |]).
        destruct Hl as [-> | Hl].
        - unfold stamped. by rewrite deref_insert_eq, lookup_insert_eq.
        - apply stamped_setitem; [by right | done]. }
      split_and!; [done | intros l Hl; apply Hstep; by right |].
      intros Hr l [-> | Hl]%elem_of_cons; [apply Hstep; by left | by apply Hall].
    + intros [= <- <-]. cbn. split_and!; [done | | done].
      intros l Hl. apply stamped_setitem; [by right | done].
Qed.

(** A comprehension whose body cannot raise and leaves the table alone. *)
Lemma for_each_total {A B} (f : A → Py B) (xs : list A) w :
  (∀ x w0, ∃ y w1, f x w0 = (Ok y, w1) ∧ rows w1 = rows w0) →
  ∃ ys w', for_each f xs w = (Ok ys, w') ∧ rows w' = rows w ∧ length ys = length xs.
Proof.
  intros Hf. revert w. induction xs as [|x rest IH]; intros w; cbn [for_each].
  - by exists [], w.
  - destruct (Hf x w) as (y & w1 & Hy & Hrows1).
    destruct (IH w1) as (ys & w2 & Hys & Hrows2 & Hlen).
    exists (y :: ys), w2. unfold mbind, Py_bind. rewrite Hy, Hys. cbn.
    split_and!; [done | congruence | by rewrite Hlen].
Qed.

Lemma to_row_zip tenant_id h (documents : list string) (metadatas : list nat) :
  (∀ l, l ∈ metadatas → stamped tenant_id h l) →
  Forall (ingested_row tenant_id)
    (to_row <$> zip_with (λ doc meta, mkDocument doc (deref h meta)) documents metadatas).
Proof.
  revert metadatas. induction documents as [|d ds IH]; intros [|m ms] Hall; cbn; try done.
  constructor.
  - split; [apply Hall; by left | done].
  - apply IH. intros l Hl. apply Hall. by right.
Qed.

(** The rows an [ingest_documents] call writes, and when it reports
    success. *)
Lemma ingest_documents_spec tenant_id documents metadatas ids fault w r w' :
  ingest_documents tenant_id documents metadatas ids fault w = (r, w') →
  ∃ res new,
    r = Ok res ∧ rows w' = rows w ++ new ∧
    Forall (ingested_row tenant_id) new ∧
    length new ≤ length documents ∧
    (∀ n e, fault = Some (n, e) → length new ≤ n) ∧
    (ingest_success res = true →
       fault = None ∧ ingest_count res = Some (length documents) ∧
       length new = length documents `min` from_option length (length documents) metadatas) ∧
    (ingest_success res = false → ∃ e, res = IngestFailure e).
Proof.
  assert (Hids : ∃ ids' wa,
    (match ids with
     | Some ids => mret ids
     | None => for_each (λ _, new_uuid) documents
     end : Py (list string)) w = (Ok ids', wa) ∧ rows wa = rows w).
  { destruct ids as [ids'|]; [by exists ids', w |].
    destruct (for_each_total (λ _ : string, new_uuid) documents w) as (ys & wa & ? & ? & _).
    - intros x w0. by eexists _, _.
    - by exists ys, wa. }
  destruct Hids as (ids' & wa & Hids & Hrows_a).
  assert (Hms : ∃ ms wb,
    (match metadatas with
     | Some metadatas => mret metadatas
     | None => for_each (λ _, alloc ∅) documents
     end : Py (list nat)) wa = (Ok ms, wb) ∧ rows wb = rows wa ∧
    length ms = from_option length (length documents) metadatas).
  { destruct metadatas as [ms|]; [by exists ms, wa |].
    destruct (for_each_total (λ _ : string, alloc ∅) documents wa) as (ys & wb & ? & ? & ?).
    - intros x w0. by eexists _, _.
    - by exists ys, wb. }
  destruct Hms as (ms & wb & Hms & Hrows_b & Hlen_ms).
  unfold ingest_documents, try_except, mbind, Py_bind.
  rewrite Hids, Hms.
  destruct (stamp_metadata tenant_id ids' 0 ms wb) as [[[]|e] wc] eqn:Hstamp;
    apply stamp_metadata_spec in Hstamp as (Hrows_c & _ & Hall).
  - pose proof (to_row_zip tenant_id (heap wc) documents ms (Hall eq_refl)) as Hnew.
    assert (Hlen_new :
      length (to_row <$> zip_with (λ doc meta, mkDocument doc (deref (heap wc) meta))
                           documents ms)
      = length documents `min` from_option length (length documents) metadatas)
      by (by rewrite length_fmap, length_zip_with, Hlen_ms).
    unfold make_docs, add_documents, insert_rows.
    destruct fault as [[n e]|]; cbn.
    + intros [= <- <-]; cbn.
      eexists _, _. split_and!; [done | by rewrite Hrows_c, Hrows_b, Hrows_a | ..].
      * by apply Forall_take.
      * rewrite length_take. lia.
      * intros n' e' [= <- <-]. rewrite length_take. lia.
      * done.
      * by eexists.
    + destruct (zip_with _ documents ms) as [|d docs]; cbn; intros [= <- <-]; cbn.
      * eexists _, []. rewrite app_nil_r.
        split_and!; [done | by rewrite Hrows_c, Hrows_b, Hrows_a | done | cbn; lia | ..].
        -- intros n' e' _. cbn. lia.
        -- done.
        -- by eexists.
      * eexists _, _. split_and!; [done | by rewrite Hrows_c, Hrows_b, Hrows_a | ..].
        -- exact Hnew.
        -- cbn in Hlen_new. cbn. lia.
        -- done.
        -- intros _. split_and!; [done.. |]. exact Hlen_new.
        -- done.
  - cbn. intros [= <- <-]. exists (IngestFailure ("Failed to ingest documents: " +:+ e)), [].
    rewrite app_nil_r. split_and!; try done.
    + by rewrite Hrows_c, Hrows_b, Hrows_a.
    + cbn. lia.
    + intros n' e' _. cbn. lia.
    + by eexists.
Qed.

Lemma ingest_pdf_spec tenant_id pdf_path additional_metadata fault w r w' :
  ingest_pdf tenant_id pdf_path additional_metadata fault w = (r, w') →
  ∃ res new,
    r = Ok res ∧ rows w' = rows w ++ new ∧
    Forall (ingested_row tenant_id) new ∧
    (∀ n e, fault = Some (n, e) → length new ≤ n) ∧
    (ingest_success res = true →
       fault = None ∧ ingest_count res = Some (length new)) ∧
    (ingest_success res = false → ∃ e, res = IngestFailure e).
Proof.
  unfold ingest_pdf, try_except, mbind, Py_bind, process_pdf.
  destruct (DocumentProcessor.process_pdf _ _ _ _) as [[chunks|e] clock'].
  - destruct (for_each_total (λ chunk, alloc (metadata chunk)) chunks
                (mkWorld (heap w) (next_loc w) (rows w) (uuids_drawn w) clock'))
      as (ms & wb & -> & Hrows_b & Hlen_ms).
    { intros x w0. by eexists _, _. }
    destruct (ingest_documents _ _ _ _ _ wb) as [r1 w1] eqn:Hingest.
    apply ingest_documents_spec in Hingest
      as (res & new & -> & Hrows & Hnew & _ & Hfault & Hsuccess & Hfailure).
    intros [= <- <-]. exists res, new. split_and!; try done.
    + by rewrite Hrows, Hrows_b.
    + intros Hs. destruct (Hsuccess Hs) as (-> & Hcount & Hlen). split; [done |].
      rewrite Hcount, Hlen. cbn. rewrite length_fmap, Hlen_ms. f_equal. lia.
  - intros [= <- <-]. exists (IngestFailure ("Failed to ingest PDF: " +:+ e)), [].
    rewrite app_nil_r. split_and!; try done; [| by eexists].
    intros n e' _. cbn. lia.
Qed.

Lemma ingest_call_rows tenant_id w w' :
  ingest_call tenant_id w w' →
  ∃ new, rows w' = rows w ++ new ∧ Forall (ingested_row tenant_id) new.
Proof.
  intros [documents metadatas ids fault r Hrun | pdf_path extra fault r Hrun].
  - apply ingest_documents_spec in Hrun as (_ & new & _ & ? & ? & _). by exists new.
  - apply ingest_pdf_spec in Hrun as (_ & new & _ & ? & ? & _). by exists new.
Qed.

(** ** Ordered scores *)

#[local] Instance by_score_total : Total by_score.
Proof.
  intros a b. unfold by_score.
  destruct (Qlt_le_dec a.2 b.2) as [Hlt | Hle]; [left; by apply Qlt_le_weak | by right].
Qed.

#[local] Instance by_score_trans : Transitive by_score.
Proof. intros a b c. unfold by_score. apply Qle_trans. Qed.

(** ** The search *)

Lemma nearest_sorted tenant_id q k table :
  StronglySorted by_score (nearest tenant_id q k table).
Proof. unfold nearest. apply StronglySorted_take, StronglySorted_merge_sort; apply _. Qed.

Lemma nearest_elem tenant_id q k table rs :
  rs ∈ nearest tenant_id q k table →
  rs.1 ∈ tenant_rows tenant_id table ∧
  rs.2 = cosine_distance (embedding rs.1) (embed q).
Proof.
  unfold nearest. intros Hin%subseteq_take.
  rewrite merge_sort_Permutation in Hin.
  apply list_elem_of_fmap in Hin as (r & -> & Hr). by split.
Qed.

Lemma nearest_length tenant_id q k table :
  length (nearest tenant_id q k table)
  = Z.to_nat k `min` length (tenant_rows tenant_id table).
Proof.
  unfold nearest. rewrite length_take, merge_sort_Permutation, length_fmap. done.
Qed.

Lemma tenant_rows_elem tenant_id table r :
  r ∈ tenant_rows tenant_id table ↔
  cmetadata r !! "tenant_id" = Some (VStr tenant_id) ∧ r ∈ table.
Proof.
  unfold tenant_rows, filter_matches. rewrite list_elem_of_filter, bool_decide_eq_true. done.
Qed.

Lemma format_results_length i results :
  length (format_results i results) = length results.
Proof.
  revert i. induction results as [|[doc score] rest IH]; intros i; simpl; [done |].
  by rewrite IH.
Qed.

Lemma format_results_lookup i results j d :
  format_results i results !! j = Some d →
  ∃ doc score, results !! j = Some (doc, score) ∧
    d = mkResult (page_content doc) (metadata doc) score (Z.of_nat (i + j) + 1).
Proof.
  revert i j. induction results as [|[doc score] rest IH]; intros i j; simpl; [done |].
  destruct j as [|j]; simpl.
  - intros [= <-]. exists doc, score. by rewrite Nat.add_0_r.
  - intros Hd. destruct (IH _ _ Hd) as (doc' & score' & ? & ->).
    exists doc', score'. split; [done |]. by rewrite Nat.add_succ_r.
Qed.

Lemma answer_lookup tenant_id q k table j d :
  answer tenant_id q k table !! j = Some d →
  ∃ row, nearest tenant_id q k table !! j = Some (row, distance d) ∧
    content d = document row ∧ res_metadata d = cmetadata row ∧
    rank d = (Z.of_nat j + 1)%Z.
Proof.
  unfold answer. intros (doc & score & Hj & ->)%format_results_lookup.
  rewrite list_lookup_fmap in Hj.
  destruct (nearest tenant_id q k table !! j) as [[row s]|] eqn:Hrow; [| done].
  injection Hj as <- <-. by exists row.
Qed.

Lemma answer_elem tenant_id q k table d :
  d ∈ answer tenant_id q k table →
  ∃ row, row ∈ tenant_rows tenant_id table ∧
    content d = document row ∧ res_metadata d = cmetadata row ∧
    distance d = cosine_distance (embedding row) (embed q).
Proof.
  intros (j & Hj)%list_elem_of_lookup_1.
  apply answer_lookup in Hj as (row & Hrow & ? & ? & _).
  apply list_elem_of_lookup_2, nearest_elem in Hrow as [? ?]. by exists row.
Qed.

Lemma answer_length tenant_id q k table :
  length (answer tenant_id q k table)
  = Z.to_nat k `min` length (tenant_rows tenant_id table).
Proof. unfold answer. by rewrite format_results_length, length_fmap, nearest_length. Qed.

(** A query never raises and leaves the world as it is. *)
Lemma query_run tenant_id q k fault w :
  query_knowledge_base tenant_id q k fault w =
  (Ok match fault with
      | Some e => QueryFailure ("Failed to query knowledge base: " +:+ e) []
      | None =>
          if decide (k < 0)%Z
          then QueryFailure
                 ("Failed to query knowledge base: " +:+ "LIMIT must not be negative") []
          else if decide (bigint_max < k)%Z
          then QueryFailure
                 ("Failed to query knowledge base: " +:+ "bigint out of range") []
          else QuerySuccess tenant_id q (answer tenant_id q k (rows w))
                 (length (answer tenant_id q k (rows w)))
      end, w).
Proof.
  unfold query_knowledge_base, try_except, mbind, Py_bind, similarity_search_with_score.
  destruct fault as [e|]; [done |]. destruct (decide (k < 0)%Z); [done |].
  by destruct (decide (bigint_max < k)%Z).
Qed.

(** The documents of a query are those of the search, or none. *)
Lemma query_documents tenant_id q k fault w res w' :
  query_knowledge_base tenant_id q k fault w = (Ok res, w') →
  w' = w ∧
  (result_documents res = [] ∨
   fault = None ∧ (0 ≤ k ≤ bigint_max)%Z ∧
   res = QuerySuccess tenant_id q (answer tenant_id q k (rows w))
           (length (answer tenant_id q k (rows w)))) ∧
  (fault = None → (0 ≤ k ≤ bigint_max)%Z →
   res = QuerySuccess tenant_id q (answer tenant_id q k (rows w))
           (length (answer tenant_id q k (rows w)))) ∧
  (∀ tenant' q' docs total, res = QuerySuccess tenant' q' docs total →
     fault = None ∧ (0 ≤ k ≤ bigint_max)%Z ∧
     docs = answer tenant_id q k (rows w) ∧ total = length docs).
Proof.
  rewrite query_run. intros [= <- <-]. split; [done |].
  destruct fault as [e|]; [split_and!; [by left | done | done] |].
  destruct (decide (k < 0)%Z); [split_and!; [by left | intros; lia | done] |].
  destruct (decide (bigint_max < k)%Z); [split_and!; [by left | intros; lia | done] |].
  split_and!.
  - right. split; [done |]. split; [lia | done].
  - done.
  - intros ? ? ? ? [= <- <- <- <-]. split; [done |]. split; [lia | done].
Qed.

(** Outside the range of a [LIMIT] the database refuses the statement
    and the query reports a failure without documents. *)
Lemma query_limit_out_of_range tenant_id q k fault w :
  (k < 0 ∨ bigint_max < k)%Z →
  ∃ e, query_knowledge_base tenant_id q k fault w = (Ok (QueryFailure e []), w).
Proof.
  intros Hk. rewrite query_run. destruct fault as [e|]; [by eexists |].
  destruct (decide (k < 0)%Z); [by eexists |].
  destruct (decide (bigint_max < k)%Z); [by eexists | lia].
Qed.

Lemma tenant_rows_after_ingest other tenant_id table new :
  other ≠ tenant_id →
  Forall (ingested_row other) new →
  tenant_rows tenant_id (table ++ new) = tenant_rows tenant_id table.
Proof.
  intros Hne Hnew. unfold tenant_rows. rewrite filter_app.
  rewrite (filter_none _ new); [by rewrite app_nil_r |].
  eapply Forall_impl; [done |]. intros r [Hr _]. unfold filter_matches.
  rewrite bool_decide_eq_true, Hr. congruence.
Qed.

(** ** Queries *)

(** C1.  A query under tenant [B] always answers, and every document it
    returns carries [tenant_id = B].  No row that names another tenant
    [A] is returned, in particular none of the rows an ingestion under
    [A] has just written, and such an ingestion does not change the
    answer at all.  The tenant filter selects the candidates before the
    cut at [top_k]: with the database answering and [top_k] within the
    range of a [LIMIT], the answer is that of the search over the
    tenant's own rows, so it has [top_k] documents as soon as the tenant
    owns that many. *)
Theorem query_tenant_isolation (A B q : string) (top_k : Z) fault w :
  A ≠ B → (1 ≤ top_k)%Z →
  ∃ res,
    query_knowledge_base B q top_k fault w = (Ok res, w) ∧
    (∀ d, d ∈ result_documents res →
       res_metadata d !! "tenant_id" = Some (VStr B)) ∧
    (∀ d row, d ∈ result_documents res → row ∈ rows w →
       cmetadata row !! "tenant_id" = Some (VStr A) →
       res_metadata d ≠ cmetadata row) ∧
    (∀ w0, ingest_call A w0 w →
       (∀ d row, d ∈ result_documents res →
          row ∈ drop (length (rows w0)) (rows w) →
          res_metadata d ≠ cmetadata row) ∧
       query_knowledge_base B q top_k fault w0 = (Ok res, w0)) ∧
    (fault = None → (top_k ≤ bigint_max)%Z →
       result_documents res = answer B q top_k (rows w) ∧
       length (result_documents res)
       = Z.to_nat top_k `min` length (tenant_rows B (rows w))).
Proof.
  intros HAB Hk.
  destruct (query_knowledge_base B q top_k fault w) as [r w'] eqn:Hrun.
  assert (Hres : ∃ res, r = Ok res).
  { rewrite query_run in Hrun. injection Hrun as <- _. by eexists. }
  destruct Hres as [res ->].
  destruct (query_documents _ _ _ _ _ _ _ Hrun) as (-> & Hcases & Hgood & _).
  exists res. split; [done |].
  assert (Hdocs : ∀ d, d ∈ result_documents res →
            res_metadata d !! "tenant_id" = Some (VStr B)).
  { intros d Hd. destruct Hcases as [Hnil | (_ & _ & ->)].
    - rewrite Hnil in Hd. by apply elem_of_nil in Hd.
    - cbn in Hd. apply answer_elem in Hd as (row & Hrow & _ & -> & _).
      by apply tenant_rows_elem in Hrow as [? _]. }
  assert (Hother : ∀ d row,
    res_metadata d !! "tenant_id" = Some (VStr B) →
    cmetadata row !! "tenant_id" = Some (VStr A) →
    res_metadata d ≠ cmetadata row).
  { intros d row Hd Hrow Heq. rewrite Heq in Hd. congruence. }
  split_and!.
  - done.
  - intros d row Hd _ Hrow. eapply Hother; [by apply Hdocs | done].
  - intros w0 Hcall. apply ingest_call_rows in Hcall as (new & Hrows & Hnew). split.
    + intros d row Hd Hrow. eapply Hother; [by apply Hdocs |].
      rewrite Hrows, drop_app_length in Hrow.
      rewrite Forall_forall in Hnew. by apply Hnew in Hrow as [? _].
    + rewrite query_run in Hrun |- *. injection Hrun as <-.
      unfold answer, nearest.
      replace (filter (λ r, filter_matches B r = true) (rows w))
        with (tenant_rows B (rows w)) by done.
      replace (filter (λ r, filter_matches B r = true) (rows w0))
        with (tenant_rows B (rows w0)) by done.
      by rewrite Hrows, (tenant_rows_after_ingest A).
  - intros Hf Hmax. rewrite (Hgood Hf) by lia. cbn. by rewrite answer_length.
Qed.

(** C3.  A successful query returns at most [top_k] documents, in
    ascending order of distance; the document at position [i] has rank
    [i + 1] and carries the content and the metadata of a row of the
    table together with the cosine distance between that row's embedding
    and the embedded query. *)
Theorem query_ranked tenant_id q (top_k : Z) fault w tenant' q' docs total w' :
  query_knowledge_base tenant_id q top_k fault w
    = (Ok (QuerySuccess tenant' q' docs total), w') →
  (Z.of_nat (length docs) ≤ top_k)%Z ∧ total = length docs ∧
  (∀ i j di dj, i < j → docs !! i = Some di → docs !! j = Some dj →
     (distance di <= distance dj)%Q) ∧
  (∀ i d, docs !! i = Some d →
     rank d = (Z.of_nat i + 1)%Z ∧
     ∃ row, row ∈ rows w ∧
       content d = document row ∧ res_metadata d = cmetadata row ∧
       distance d = cosine_distance (embedding row) (embed q)).
Proof.
  rewrite query_run. destruct fault as [e|]; [done |].
  destruct (decide (top_k < 0)%Z) as [|Hk]; [done |].
  destruct (decide (bigint_max < top_k)%Z) as [|Hmax]; [done |].
  intros [= <- <- <- <- <-]. split_and!.
  - rewrite answer_length. lia.
  - done.
  - intros i j di dj Hij Hi Hj.
    apply answer_lookup in Hi as (ri & Hi & _), Hj as (rj & Hj & _).
    by apply (StronglySorted_lookup _ _ _ _ _ _ (nearest_sorted tenant_id q top_k (rows w))
                Hij Hi Hj).
  - intros i d Hd. split.
    + by apply answer_lookup in Hd as (? & _ & _ & _ & ?).
    + apply list_elem_of_lookup_2, answer_elem in Hd as (row & Hrow & ? & ? & ?).
      apply tenant_rows_elem in Hrow as [_ ?]. by exists row.
Qed.

(** C7.  With the database answering and a [top_k] in the range of a
    [LIMIT] (not negative, at most 2^63 - 1), a query for a tenant that
    has no row in the table (an empty table in particular) succeeds with
    no document and [total_results = 0]. *)
Theorem query_empty_corpus tenant_id q (top_k : Z) w :
  (0 ≤ top_k ≤ bigint_max)%Z →
  tenant_rows tenant_id (rows w) = [] →
  query_knowledge_base tenant_id q top_k None w
    = (Ok (QuerySuccess tenant_id q [] 0), w).
Proof.
  intros Hk Hempty. rewrite query_run, !decide_False by lia.
  unfold answer, nearest.
  replace (filter (λ r, filter_matches tenant_id r = true) (rows w))
    with (tenant_rows tenant_id (rows w)) by done.
  rewrite Hempty. cbn. by rewrite take_nil.
Qed.

Lemma nearest_head tenant_id q k table r :
  (1 ≤ k)%Z → r ∈ tenant_rows tenant_id table →
  ∃ top rest, nearest tenant_id q k table = top :: rest ∧
    (top.2 <= cosine_distance (embedding r) (embed q))%Q.
Proof.
  intros Hk Hr. unfold nearest.
  set (scored := (λ r, (r, cosine_distance (embedding r) (embed q))) <$> filter _ table).
  assert (Hin : (r, cosine_distance (embedding r) (embed q)) ∈ merge_sort by_score scored).
  { rewrite merge_sort_Permutation.
    by apply (list_elem_of_fmap_2 (λ r, (r, cosine_distance (embedding r) (embed q)))). }
  pose proof (StronglySorted_merge_sort by_score scored) as Hs.
  destruct (merge_sort by_score scored) as [|x l]; [by apply elem_of_nil in Hin |].
  destruct (Z.to_nat k) as [|n] eqn:Hn; [lia |].
  exists x, (take n l). split; [done |].
  apply elem_of_cons in Hin as [<- | Hin]; [apply Qle_refl |].
  apply StronglySorted_inv in Hs as [_ Hall]. rewrite Forall_forall in Hall.
  by apply (Hall _ Hin).
Qed.

(** C6, as the code has it.  Take an embedding at distance 0 from itself
    and distances that are never negative.  After an ingestion under a
    tenant, a query of that tenant with the exact text of a chunk just
    written and [top_k] from 1 to 2^63 - 1 (the range of a [LIMIT])
    succeeds, and its first document has rank 1,
    distance 0 and the tenant's [tenant_id].  That document is the chunk
    itself whenever the chunk is the tenant's only row at distance 0
    from the text. *)
Theorem roundtrip_top_result tenant_id w0 w chunk (top_k : Z) :
  (∀ t, cosine_distance (embed t) (embed t) == 0)%Q →
  (∀ a b, 0 <= cosine_distance a b)%Q →
  ingest_call tenant_id w0 w →
  chunk ∈ drop (length (rows w0)) (rows w) →
  (1 ≤ top_k ≤ bigint_max)%Z →
  ∃ top rest,
    query_knowledge_base tenant_id (document chunk) top_k None w
      = (Ok (QuerySuccess tenant_id (document chunk) (top :: rest) (S (length rest))), w) ∧
    rank top = 1%Z ∧ (distance top == 0)%Q ∧
    res_metadata top !! "tenant_id" = Some (VStr tenant_id) ∧
    ((∀ row, row ∈ tenant_rows tenant_id (rows w) →
        (cosine_distance (embedding row) (embed (document chunk)) == 0)%Q →
        row = chunk) →
     content top = document chunk ∧ res_metadata top = cmetadata chunk).
Proof.
  intros Hself Hpos Hcall Hchunk Hk.
  apply ingest_call_rows in Hcall as (new & Hrows & Hnew).
  rewrite Hrows, drop_app_length in Hchunk.
  rewrite Forall_forall in Hnew. destruct (Hnew _ Hchunk) as [Htenant Hemb].
  assert (Hmine : chunk ∈ tenant_rows tenant_id (rows w)).
  { apply tenant_rows_elem. split; [done |]. rewrite Hrows. apply elem_of_app. by right. }
  destruct (nearest_head tenant_id (document chunk) top_k (rows w) chunk (proj1 Hk) Hmine)
    as ([row score] & rest & Hnearest & Hle).
  assert (Htop : (row, score) ∈ nearest tenant_id (document chunk) top_k (rows w)).
  { rewrite Hnearest. by left. }
  apply nearest_elem in Htop as [Hrow Hscore]. cbn in Hle, Hrow, Hscore.
  assert (Hzero : (score == 0)%Q).
  { apply Qle_antisym; [| rewrite Hscore; apply Hpos].
    rewrite Hemb, Hself in Hle. done. }
  rewrite query_run, !decide_False by lia. unfold answer. rewrite Hnearest. cbn.
  eexists _, _. split_and!; [reflexivity | done | done | |]; cbn.
  - by apply tenant_rows_elem in Hrow as [? _].
  - intros Honly. rewrite (Honly row Hrow); [done |]. by rewrite <- Hscore.
Qed.

(** ** Ingestion *)

Lemma add_items_tenant_id items (m : Metadata) :
  DocumentProcessor.add_items items m !! "tenant_id" = m !! "tenant_id".
Proof.
  unfold DocumentProcessor.add_items. revert m.
  induction items as [|[k v] rest IH]; intros m; cbn; [done |].
  rewrite IH. destruct (decide (k = "tenant_id")); [done |]. by rewrite lookup_insert_ne.
Qed.

Lemma enrich_metadata_tenant_id documents tenant_id additional_metadata clock :
  Forall (λ d, metadata d !! "tenant_id" = Some (VStr tenant_id))
    (DocumentProcessor.enrich_metadata documents tenant_id additional_metadata clock).1.
Proof.
  revert clock. induction documents as [|doc rest IH]; intros clock; cbn; [done |].
  specialize (IH (S clock)).
  destruct (DocumentProcessor.enrich_metadata rest _ _ _) as [rest' clock']. cbn in *.
  constructor; [| done]. cbn.
  by rewrite add_items_tenant_id, lookup_insert_ne, lookup_insert_eq.
Qed.

(** C10.  Whatever the caller's dictionaries and [additional_metadata]
    hold, a [tenant_id] entry of another value included: every row that
    [ingest_documents] or [ingest_pdf] writes carries the [tenant_id] of
    the call, and so does every chunk that [enrich_metadata] returns. *)
Theorem ingest_tenant_id_is_the_callers (tenant_id : string) w :
  (∀ documents metadatas ids fault,
     ∃ new,
       rows (ingest_documents tenant_id documents metadatas ids fault w).2
         = rows w ++ new ∧
       Forall (λ r, cmetadata r !! "tenant_id" = Some (VStr tenant_id)) new) ∧
  (∀ pdf_path additional_metadata fault,
     ∃ new,
       rows (ingest_pdf tenant_id pdf_path additional_metadata fault w).2
         = rows w ++ new ∧
       Forall (λ r, cmetadata r !! "tenant_id" = Some (VStr tenant_id)) new) ∧
  (∀ chunks additional_metadata clock,
     Forall (λ d, metadata d !! "tenant_id" = Some (VStr tenant_id))
       (DocumentProcessor.enrich_metadata chunks tenant_id additional_metadata clock).1).
Proof.
  split_and!.
  - intros documents metadatas ids fault.
    destruct (ingest_documents _ _ _ _ _ w) as [r w'] eqn:Hrun.
    apply ingest_documents_spec in Hrun as (_ & new & _ & Hrows & Hnew & _).
    exists new. split; [done |]. eapply Forall_impl; [done |]. by intros r' [? _].
  - intros pdf_path additional_metadata fault.
    destruct (ingest_pdf _ _ _ _ w) as [r w'] eqn:Hrun.
    apply ingest_pdf_spec in Hrun as (_ & new & _ & Hrows & Hnew & _).
    exists new. split; [done |]. eapply Forall_impl; [done |]. by intros r' [? _].
  - intros chunks additional_metadata clock. apply enrich_metadata_tenant_id.
Qed.

(** C2, as the code has it.  Both ingestion entry points catch every
    exception and return a result.  When the database fails, the result
    is a failure and no row beyond those already written is added; a
    failure result holds an error message and no count.  A success
    result is returned only when nothing failed, and its
    [document_count] is never below the number of rows written. *)
Theorem ingest_failure_report (tenant_id : string) w :
  (∀ documents metadatas ids fault,
     ∃ res w' new,
       ingest_documents tenant_id documents metadatas ids fault w = (Ok res, w') ∧
       rows w' = rows w ++ new ∧
       (∀ n e, fault = Some (n, e) → ingest_success res = false ∧ length new ≤ n) ∧
       (ingest_success res = false →
          (∃ e, res = IngestFailure e) ∧ ingest_count res = None) ∧
       (ingest_success res = true →
          fault = None ∧ ∃ n, ingest_count res = Some n ∧ length new ≤ n)) ∧
  (∀ pdf_path additional_metadata fault,
     ∃ res w' new,
       ingest_pdf tenant_id pdf_path additional_metadata fault w = (Ok res, w') ∧
       rows w' = rows w ++ new ∧
       (∀ n e, fault = Some (n, e) → ingest_success res = false ∧ length new ≤ n) ∧
       (ingest_success res = false →
          (∃ e, res = IngestFailure e) ∧ ingest_count res = None) ∧
       (ingest_success res = true →
          fault = None ∧ ∃ n, ingest_count res = Some n ∧ length new ≤ n)).
Proof.
  split.
  - intros documents metadatas ids fault.
    destruct (ingest_documents _ _ _ _ _ w) as [r w'] eqn:Hrun.
    apply ingest_documents_spec in Hrun
      as (res & new & -> & Hrows & _ & Hlen & Hfault & Hsuccess & Hfailure).
    exists res, w', new. split_and!; try done.
    + intros n e Hf. split; [| by eapply Hfault].
      destruct (ingest_success res) eqn:Hs; [| done].
      destruct (Hsuccess eq_refl) as [-> _]. done.
    + intros Hs. destruct (Hfailure Hs) as [e ->]. split; [by exists e | done].
    + intros Hs. destruct (Hsuccess Hs) as (-> & Hcount & _). split; [done |].
      by exists (length documents).
  - intros pdf_path additional_metadata fault.
    destruct (ingest_pdf _ _ _ _ w) as [r w'] eqn:Hrun.
    apply ingest_pdf_spec in Hrun
      as (res & new & -> & Hrows & _ & Hfault & Hsuccess & Hfailure).
    exists res, w', new. split_and!; try done.
    + intros n e Hf. split; [| by eapply Hfault].
      destruct (ingest_success res) eqn:Hs; [| done].
      destruct (Hsuccess eq_refl) as [-> _]. done.
    + intros Hs. destruct (Hfailure Hs) as [e ->]. split; [by exists e | done].
    + intros Hs. destruct (Hsuccess Hs) as (-> & Hcount). split; [done |].
      by exists (length new).
Qed.

(** ** Deletion *)

Lemma delete_matches_text tenant_id doc_id r :
  delete_matches tenant_id doc_id r = true ↔
  text_at "tenant_id" r = Some tenant_id ∧ text_at "doc_id" r = Some doc_id.
Proof. unfold delete_matches, text_at. by rewrite andb_true_iff, !bool_decide_eq_true. Qed.

Lemma spared_false tenant_id doc_ids r :
  spared tenant_id doc_ids r = false →
  ∃ doc_id, doc_id ∈ doc_ids ∧ delete_matches tenant_id doc_id r = true.
Proof.
  unfold spared. induction doc_ids as [|d rest IH]; cbn; [done |].
  destruct (delete_matches tenant_id d r) eqn:Hd; cbn.
  - intros _. exists d. split; [by left | done].
  - intros (d' & ? & ?)%IH. exists d'. split; [by right | done].
Qed.

Lemma spared_true tenant_id doc_ids r :
  spared tenant_id doc_ids r = true ↔
  ∀ doc_id, doc_id ∈ doc_ids → delete_matches tenant_id doc_id r = false.
Proof.
  unfold spared. induction doc_ids as [|d rest IH]; cbn.
  - split; [by intros _ d ?%elem_of_nil | done].
  - rewrite andb_true_iff, IH, negb_true_iff. split.
    + intros [Hd Hrest] d' [-> | ?]%elem_of_cons; [done | by apply Hrest].
    + intros Hall. split; [apply Hall; by left |]. intros d' ?. apply Hall. by right.
Qed.

Lemma spared_other_tenant tenant_id doc_ids r :
  text_at "tenant_id" r ≠ Some tenant_id → spared tenant_id doc_ids r = true.
Proof.
  intros Hother. apply spared_true. intros d _.
  destruct (delete_matches tenant_id d r) eqn:Hd; [| done].
  by apply delete_matches_text in Hd as [? _].
Qed.

(** The loop runs its statements in order until the database fails. *)
Lemma delete_loop_spec tenant_id doc_ids done fault w r w' :
  delete_loop tenant_id doc_ids done fault w = (r, w') →
  ∃ processed,
    processed `prefix_of` doc_ids ∧
    rows w' = filter (λ row, spared tenant_id processed row = true) (rows w) ∧
    (r = Ok () → processed = doc_ids) ∧
    (fault = None → r = Ok ()).
Proof.
  revert done w. induction doc_ids as [|d rest IH]; intros done w.
  - intros [= <- <-]. exists []. split_and!; try done.
    rewrite filter_all; [done |]. by apply Forall_forall.
  - cbn [delete_loop]. unfold mbind, Py_bind.
    assert (Hcont :
      delete_loop tenant_id rest (S done) fault
        (mkWorld (heap w) (next_loc w)
           (filter (λ r, delete_matches tenant_id d r = false) (rows w))
           (uuids_drawn w) (clock_reads w)) = (r, w') →
      ∃ processed, processed `prefix_of` d :: rest ∧
        rows w' = filter (λ row, spared tenant_id processed row = true) (rows w) ∧
        (r = Ok () → processed = d :: rest) ∧ (fault = None → r = Ok ())).
    { intros (processed & Hpre & Hrows & Hall & Hok)%IH. exists (d :: processed).
      split_and!; [by apply prefix_cons | | by intros ->%Hall | done].
      rewrite Hrows. cbn [rows]. rewrite list_filter_filter.
      apply list_filter_iff. intros row. unfold spared. cbn [forallb].
      rewrite andb_true_iff, negb_true_iff. tauto. }
    unfold db_check. destruct fault as [[n e]|]; [| exact Hcont].
    destruct (decide (n = done)); [| exact Hcont].
    intros [= <- <-]. exists []. split_and!; [apply prefix_nil | | done | done].
    rewrite filter_all; [done |]. by apply Forall_forall.
Qed.

Lemma delete_documents_spec tenant_id doc_ids fault w r w' :
  delete_documents tenant_id doc_ids fault w = (r, w') →
  ∃ processed,
    processed `prefix_of` doc_ids ∧
    rows w' = filter (λ row, spared tenant_id processed row = true) (rows w) ∧
    (fault = None →
       processed = doc_ids ∧ r = Ok (DeleteSuccess tenant_id (length doc_ids))).
Proof.
  unfold delete_documents, try_except, mbind, Py_bind, db_check.
  assert (Hloop :
    match
      match delete_loop tenant_id doc_ids 0 fault w with
      | (Ok _, w1) => (Ok (DeleteSuccess tenant_id (length doc_ids)), w1)
      | (Raise e, w1) => (Raise e, w1)
      end
    with
    | (Ok a, w1) => (Ok a, w1)
    | (Raise e, w1) =>
        (Ok (DeleteFailure ("Failed to delete documents: " +:+ e)), w1)
    end = (r, w') →
    ∃ processed, processed `prefix_of` doc_ids ∧
      rows w' = filter (λ row, spared tenant_id processed row = true) (rows w) ∧
      (fault = None →
         processed = doc_ids ∧ r = Ok (DeleteSuccess tenant_id (length doc_ids)))).
  { destruct (delete_loop tenant_id doc_ids 0 fault w) as [[[]|e] w1] eqn:Hrun;
      apply delete_loop_spec in Hrun as (processed & Hpre & Hrows & Hall & Hok);
      intros [= <- <-]; exists processed; split_and!; try done.
    - intros _. split; [by apply Hall | done].
    - intros Hf. by specialize (Hok Hf). }
  destruct fault as [[n e]|]; [| exact Hloop].
  destruct (decide (n = 0)); [| exact Hloop].
  intros [= <- <-]. exists []. split_and!; [apply prefix_nil | | done].
  rewrite filter_all; [done |]. by apply Forall_forall.
Qed.

(** C9.  [delete_documents] for tenant [T] only removes rows: what is
    left is the table without some of its rows, in the same order.  A
    removed row has [tenant_id] [T] and a [doc_id] of the list; every
    row of another tenant is kept as it is, even when its [doc_id] is in
    the list.  When the database does not fail, the call succeeds and
    the rows removed are exactly those of [T] with a listed [doc_id]. *)
Theorem delete_documents_frame (T : string) (document_ids : list string) fault w r w' :
  delete_documents T document_ids fault w = (r, w') →
  rows w' `sublist_of` rows w ∧
  (∀ row, row ∈ rows w → row ∉ rows w' →
     text_at "tenant_id" row = Some T ∧
     ∃ doc_id, doc_id ∈ document_ids ∧ text_at "doc_id" row = Some doc_id) ∧
  filter (λ row, text_at "tenant_id" row ≠ Some T) (rows w')
    = filter (λ row, text_at "tenant_id" row ≠ Some T) (rows w) ∧
  (fault = None →
     r = Ok (DeleteSuccess T (length document_ids)) ∧
     ∀ row, row ∈ rows w' ↔
       row ∈ rows w ∧
       ¬ (text_at "tenant_id" row = Some T ∧
          ∃ doc_id, doc_id ∈ document_ids ∧ text_at "doc_id" row = Some doc_id)).
Proof.
  intros (processed & Hpre & Hrows & Hok)%delete_documents_spec. rewrite Hrows.
  split_and!.
  - apply sublist_filter.
  - intros row Hin Hgone. rewrite list_elem_of_filter in Hgone.
    destruct (spared T processed row) eqn:Hs; [by destruct Hgone |].
    apply spared_false in Hs as (d & Hd & [? ?]%delete_matches_text).
    split; [done |]. exists d. split; [| done].
    destruct Hpre as [rest ->]. apply elem_of_app. by left.
  - rewrite list_filter_filter. apply list_filter_iff. intros row.
    split; [by intros [? _] |]. intros Hother. split; [done |].
    by apply spared_other_tenant.
  - intros Hf. destruct (Hok Hf) as [-> ->]. split; [done |]. intros row.
    rewrite list_elem_of_filter, spared_true. split.
    + intros [Hall Hin]. split; [done |]. intros (Ht & d & Hd & Hdoc).
      specialize (Hall d Hd).
      assert (delete_matches T d row = true) by by apply delete_matches_text.
      congruence.
    + intros [Hin Hnot]. split; [| done]. intros d Hd.
      destruct (delete_matches T d row) eqn:Hm; [| done].
      apply delete_matches_text in Hm as [? ?]. destruct Hnot. split; [done |].
      by exists d.
Qed.
End rag_properties.

(** * Properties of the stable sort *)

Section sort_by_key_properties.
Context {A : Type} (key : A → Z).

#[local] Instance key_le_trans : Transitive (key_le key).
Proof. intros a b c. unfold key_le. lia. Qed.

Lemma insert_by_key_perm x (l : list A) : insert_by_key key x l ≡ₚ x :: l.
Proof.
  induction l as [|y l IH]; cbn; [done |].
  destruct (decide (key x ≤ key y)%Z); [done |].
  rewrite IH. apply Permutation_swap.
Qed.

Lemma sort_by_key_perm (l : list A) : sort_by_key key l ≡ₚ l.
Proof.
  induction l as [|x l IH]; cbn; [done |].
  by rewrite insert_by_key_perm, IH.
Qed.

Lemma insert_by_key_sorted x (l : list A) :
  StronglySorted (key_le key) l → StronglySorted (key_le key) (insert_by_key key x l).
Proof.
  induction 1 as [|y l Hs IH Hall]; cbn; [by repeat constructor |].
  destruct (decide (key x ≤ key y)%Z) as [Hle | Hgt].
  - constructor; [by constructor |]. constructor; [done |].
    eapply Forall_impl; [done |]. intros z Hz. unfold key_le in *. lia.
  - constructor; [done |]. rewrite insert_by_key_perm. constructor; [| done].
    unfold key_le. lia.
Qed.

Lemma sort_by_key_sorted (l : list A) : StronglySorted (key_le key) (sort_by_key key l).
Proof.
  induction l as [|x l IH]; cbn; [constructor |]. by apply insert_by_key_sorted.
Qed.

End sort_by_key_properties.

(** * Properties of the conversation memory *)

Section conversation_memory_properties.
Import ConversationMemory.

Lemma kept_role_langchain include_system m :
  kept_role include_system m → is_Some (to_langchain m).
Proof.
  unfold kept_role, to_langchain.
  intros [Hu | [Ha | [_ Hs]]]; repeat case_decide; eauto; congruence.
Qed.

Lemma most_recent_sorted (n : nat) (l : list Message) :
  StronglySorted (key_le created_at) l →
  StronglySorted (key_le created_at) (most_recent n l).
Proof.
  intros Hs. unfold most_recent.
  rewrite <- (take_drop (length l - n) l) in Hs. by apply StronglySorted_app_1_r in Hs.
Qed.

(** C4, as the spec's contract has it.  The history is always the
    role-tagged image of stored messages of the session taken in
    non-decreasing order of creation time, at most [max_messages] of
    them.  For a session all of whose messages carry a role that the
    reader keeps, and that stores more than [N] messages, the history
    under [max_messages = N] has exactly [N] entries: the images, in
    order, of [N] stored messages that are at least as recent as every
    other message of the session. *)
Theorem get_history_most_recent (store : list Message) (sid : string) (N : nat)
    (include_system : bool) :
  (∃ shown,
     Forall2 (λ m b, to_langchain m = Some b) shown
       (get_conversation_history store sid N include_system) ∧
     StronglySorted (key_le created_at) shown ∧
     (∀ m, m ∈ shown → m ∈ store ∧ session_id m = sid) ∧
     length shown ≤ N) ∧
  (Forall (kept_role include_system) (filter (λ m, session_id m = sid) store) →
   N < length (filter (λ m, session_id m = sid) store) →
   ∃ older kept,
     filter (λ m, session_id m = sid) store ≡ₚ older ++ kept ∧
     length kept = N ∧
     (∀ a b, a ∈ older → b ∈ kept → (created_at a ≤ created_at b)%Z) ∧
     StronglySorted (key_le created_at) kept ∧
     Forall2 (λ m b, to_langchain m = Some b) kept
       (get_conversation_history store sid N include_system)).
Proof.
  unfold get_conversation_history, select_history.
  set (own := filter (λ m, session_id m = sid) store).
  set (visible := filter (λ m, include_system = true ∨ role m ≠ "system") own).
  pose proof (sort_by_key_sorted created_at visible) as Hsorted.
  pose proof (sort_by_key_perm created_at visible) as Hperm.
  split.
  - exists (filter (λ m, is_Some (to_langchain m))
              (most_recent N (sort_by_key created_at visible))).
    split_and!.
    + apply omap_Forall2.
    + by apply StronglySorted_filter, most_recent_sorted.
    + intros m [_ Hm]%list_elem_of_filter.
      apply subseteq_drop in Hm. rewrite Hperm in Hm.
      apply list_elem_of_filter in Hm as [_ Hm].
      by apply list_elem_of_filter in Hm as [? ?].
    + etransitivity; [apply length_filter |].
      unfold most_recent. rewrite length_drop. lia.
  - intros Hroles Hlen.
    assert (Hvis : visible = own).
    { apply filter_all. eapply Forall_impl; [done |].
      intros m [Hu | [Ha | [-> _]]]; [right; by rewrite Hu | right; by rewrite Ha | by left]. }
    rewrite Hvis in *. clear Hvis.
    assert (Hl : length (sort_by_key created_at own) = length own) by by rewrite Hperm.
    exists (take (length (sort_by_key created_at own) - N) (sort_by_key created_at own)),
           (most_recent N (sort_by_key created_at own)).
    unfold most_recent. split_and!.
    + by rewrite take_drop.
    + rewrite length_drop. lia.
    + intros a b Ha Hb. rewrite <- (take_drop (length (sort_by_key created_at own) - N)
                                     (sort_by_key created_at own)) in Hsorted.
      by apply (StronglySorted_app_1_elem_of _ _ _ _ _ Hsorted Ha Hb).
    + by apply (most_recent_sorted N).
    + assert (Hall : Forall (λ m, is_Some (to_langchain m))
                       (drop (length (sort_by_key created_at own) - N)
                          (sort_by_key created_at own))).
      { apply Forall_forall. intros m Hm%subseteq_drop. rewrite Hperm in Hm.
        rewrite Forall_forall in Hroles. by eapply kept_role_langchain, Hroles. }
      rewrite <- (filter_all _ _ Hall) at 1. apply omap_Forall2.
Qed.
End conversation_memory_properties.

(** * Properties of tool selection *)

Section tool_selection_properties.
Import AgentExecutor.

Lemma first_satisfiable_split entities tools t :
  first_satisfiable entities tools = Some t →
  satisfiable entities t = true ∧
  ∃ skipped later,
    tools = skipped ++ t :: later ∧
    Forall (λ s, satisfiable entities s = false) skipped.
Proof.
  induction tools as [|s rest IH]; cbn; [done |].
  destruct (satisfiable entities s) eqn:Hs.
  - intros [= <-]. split; [done |]. by exists [], rest.
  - intros (Ht & skipped & later & -> & Hskipped)%IH. split; [done |].
    exists (s :: skipped), later. split; [done |]. by constructor.
Qed.

Lemma first_satisfiable_none entities tools :
  first_satisfiable entities tools = None ↔
  Forall (λ s, satisfiable entities s = false) tools.
Proof.
  induction tools as [|s rest IH]; cbn; [by split |].
  destruct (satisfiable entities s) eqn:Hs.
  - split; [done |]. intros Hall. apply Forall_cons in Hall as [? _]. congruence.
  - rewrite IH. split; [by constructor |]. by intros [_ ?]%Forall_cons.
Qed.

Lemma priority_order_elem tools t :
  t ∈ priority_order tools ↔ t ∈ tools ∧ enabled t = true.
Proof.
  unfold priority_order. rewrite sort_by_key_perm, list_elem_of_filter. tauto.
Qed.

(** C8.  Selection returns an enabled tool of the agent whose required
    parameters are all among the extracted entities; every tool tried
    before it, in priority order, lacks a required parameter and is
    passed over; no enabled satisfiable tool has a lower priority
    number.  The turn then records that one call.  As soon as one
    enabled tool of the agent is satisfiable, a tool is selected and
    called.  When no enabled tool is satisfiable, selection returns
    nothing and [tool_calls] is empty.
    With ToolA (priority 1, requires x) and ToolB (priority 2, requires
    y) and the extraction y = "v", ToolB is called. *)
Theorem select_tool_first_satisfiable (tools : list ToolSpec)
    (entities : gmap string string) :
  (∀ t, select_tool tools entities = Some t →
     t ∈ tools ∧ enabled t = true ∧ satisfiable entities t = true ∧
     (∃ skipped later,
        priority_order tools = skipped ++ t :: later ∧
        Forall (λ s, satisfiable entities s = false) skipped) ∧
     (∀ s, s ∈ tools → enabled s = true → satisfiable entities s = true →
        (priority t ≤ priority s)%Z) ∧
     tool_calls tools entities = [tool_name t]) ∧
  (∀ s, s ∈ tools → enabled s = true → satisfiable entities s = true →
     ∃ t, select_tool tools entities = Some t ∧
          tool_calls tools entities = [tool_name t]) ∧
  ((∀ s, s ∈ tools → enabled s = true → satisfiable entities s = false) →
   select_tool tools entities = None ∧ tool_calls tools entities = []) ∧
  tool_calls [Sample.ToolA; Sample.ToolB] {["y" := "v"]} = ["ToolB"].
Proof.
  split_and!.
  - intros t Hsel. unfold tool_calls. rewrite Hsel. unfold select_tool in Hsel.
    apply first_satisfiable_split in Hsel as (Hsat & skipped & later & Horder & Hskipped).
    assert (Hin : t ∈ priority_order tools).
    { rewrite Horder. apply elem_of_app. right. by left. }
    apply priority_order_elem in Hin as [Hin Hen].
    split_and!; try done.
    + by exists skipped, later.
    + intros s Hs Hs_en Hs_sat.
      assert (Hs_in : s ∈ priority_order tools) by by apply priority_order_elem.
      pose proof (sort_by_key_sorted priority (filter (λ t, enabled t = true) tools))
        as Hsorted.
      fold (priority_order tools) in Hsorted. rewrite Horder in Hs_in, Hsorted.
      apply elem_of_app in Hs_in as [Hs_in | Hs_in].
      * rewrite Forall_forall in Hskipped. specialize (Hskipped _ Hs_in). congruence.
      * apply StronglySorted_app_1_r in Hsorted.
        apply elem_of_cons in Hs_in as [-> | Hs_in]; [done |].
        apply StronglySorted_inv in Hsorted as [_ Hall].
        rewrite Forall_forall in Hall. by apply Hall.
  - intros s Hs Hen Hsat. unfold tool_calls.
    destruct (select_tool tools entities) as [t|] eqn:Hsel; [by exists t |].
    apply first_satisfiable_none in Hsel. rewrite Forall_forall in Hsel.
    assert (Hin : s ∈ priority_order tools) by by apply priority_order_elem.
    specialize (Hsel s Hin). congruence.
  - intros Hnone. unfold tool_calls.
    assert (Hsel : select_tool tools entities = None).
    { apply first_satisfiable_none, Forall_forall.
      intros s [? ?]%priority_order_elem. by apply Hnone. }
    by rewrite Hsel.
  - reflexivity.
Qed.
End tool_selection_properties.

(** * Concrete runs *)

Section concrete_runs.
Import RAGService.
#[local] Existing Instance Sample.environment.

Lemma sample_self_distance (t : string) : (cosine_distance (embed t) (embed t) == 0)%Q.
Proof. cbn. by rewrite decide_True. Qed.

Lemma sample_distance_nonneg (a b : Emb) : (0 <= cosine_distance a b)%Q.
Proof. cbn. case_decide; unfold Qle; cbn; lia. Qed.

Lemma query_tenant_isolation_witness :
  "A" ≠ "B" ∧ (1 ≤ 2)%Z ∧
  ∃ res,
    query_knowledge_base "B" "page one" 2 None Sample.world_AB
      = (Ok res, Sample.world_AB) ∧
    length (result_documents res) = 2 ∧
    ∀ d, d ∈ result_documents res → res_metadata d !! "tenant_id" = Some (VStr "B").
Proof.
  assert (Hne : "A" ≠ "B") by discriminate.
  assert (Hk : (1 ≤ 2)%Z) by lia.
  split; [exact Hne |]. split; [exact Hk |].
  destruct (query_tenant_isolation "A" "B" "page one" 2 None Sample.world_AB Hne Hk)
    as (res & Hrun & Htenant & _ & _ & Hpre).
  exists res. split; [exact Hrun |]. split; [| exact Htenant].
  assert (Hmax : (2 ≤ bigint_max)%Z) by (vm_compute; discriminate).
  destruct (Hpre eq_refl Hmax) as [_ ->]. vm_compute. reflexivity.
Defined.

Lemma query_ranked_witness :
  ∃ docs,
    query_knowledge_base "B" "page one" 2 None Sample.world_AB
      = (Ok (QuerySuccess "B" "page one" docs 2), Sample.world_AB) ∧
    (Z.of_nat (length docs) ≤ 2)%Z ∧
    (∀ i d, docs !! i = Some d → rank d = (Z.of_nat i + 1)%Z).
Proof.
  exists (answer "B" "page one" 2 (rows Sample.world_AB)).
  assert (Hrun : query_knowledge_base "B" "page one" 2 None Sample.world_AB
                 = (Ok (QuerySuccess "B" "page one"
                          (answer "B" "page one" 2 (rows Sample.world_AB)) 2),
                    Sample.world_AB)) by (vm_compute; reflexivity).
  split; [exact Hrun |].
  destruct (query_ranked _ _ _ _ _ _ _ _ _ _ Hrun) as (Hlen & _ & _ & Hrank).
  split; [exact Hlen |]. intros i d Hd. by destruct (Hrank i d Hd).
Defined.

Lemma query_empty_corpus_witness :
  (0 ≤ 5 ≤ bigint_max)%Z ∧ tenant_rows "C" (rows Sample.world_AB) = [] ∧
  query_knowledge_base "C" "shipment tracking" 5 None Sample.world_AB
    = (Ok (QuerySuccess "C" "shipment tracking" [] 0), Sample.world_AB).
Proof.
  assert (Hk : (0 ≤ 5 ≤ bigint_max)%Z) by (split; vm_compute; discriminate).
  assert (Hnone : tenant_rows "C" (rows Sample.world_AB) = []) by (vm_compute; reflexivity).
  split; [exact Hk |]. split; [exact Hnone |].
  exact (query_empty_corpus "C" "shipment tracking" 5 Sample.world_AB Hk Hnone).
Defined.

Lemma roundtrip_top_result_witness :
  ∃ top rest,
    query_knowledge_base "A" "alpha" 3 None Sample.world_A
      = (Ok (QuerySuccess "A" "alpha" (top :: rest) (S (length rest))), Sample.world_A) ∧
    rank top = 1%Z ∧ (distance top == 0)%Q ∧
    content top = "alpha" ∧ res_metadata top = cmetadata Sample.alpha_chunk.
Proof.
  assert (Hcall : ingest_call "A" Sample.empty_world Sample.world_A).
  { apply (call_ingest_documents "A" Sample.empty_world Sample.world_A
             ["alpha"; "beta"] None (Some ["d1"; "d2"]) None
             (ingest_documents "A" ["alpha"; "beta"] None (Some ["d1"; "d2"]) None
                Sample.empty_world).1).
    vm_compute. reflexivity. }
  assert (Hrows : rows Sample.world_A = Sample.alpha_chunk :: drop 1 (rows Sample.world_A))
    by (vm_compute; reflexivity).
  assert (Hchunk : Sample.alpha_chunk
                   ∈ drop (length (rows Sample.empty_world)) (rows Sample.world_A)).
  { cbn [Sample.empty_world rows length drop]. rewrite Hrows. by left. }
  assert (Hk : (1 ≤ 3 ≤ bigint_max)%Z) by (split; vm_compute; discriminate).
  destruct (roundtrip_top_result "A" Sample.empty_world Sample.world_A Sample.alpha_chunk 3
              sample_self_distance sample_distance_nonneg Hcall Hchunk Hk)
    as (top & rest & Hrun & Hrank & Hzero & _ & Hsame).
  assert (Hdoc : document Sample.alpha_chunk = "alpha") by (vm_compute; reflexivity).
  rewrite Hdoc in Hrun, Hsame.
  exists top, rest. split; [exact Hrun |]. split; [exact Hrank |]. split; [exact Hzero |].
  apply Hsame. intros row Hrow Hdist.
  assert (Hmine : tenant_rows "A" (rows Sample.world_A)
                  = [Sample.alpha_chunk; hd Sample.alpha_chunk (drop 1 (rows Sample.world_A))])
    by (vm_compute; reflexivity).
  rewrite Hmine in Hrow. rewrite !elem_of_cons, elem_of_nil in Hrow.
  destruct Hrow as [Hrow | [Hrow | []]]; [exact Hrow |].
  rewrite Hrow in Hdist. vm_compute in Hdist. discriminate Hdist.
Defined.

Lemma delete_documents_frame_witness :
  length (rows (delete_documents "A" ["d1"; "uuid-0"] None Sample.world_AB).2) = 5 ∧
  filter (λ row, text_at "tenant_id" row ≠ Some "A")
    (rows (delete_documents "A" ["d1"; "uuid-0"] None Sample.world_AB).2)
  = filter (λ row, text_at "tenant_id" row ≠ Some "A") (rows Sample.world_AB).
Proof.
  split; [vm_compute; reflexivity |].
  destruct (delete_documents_frame "A" ["d1"; "uuid-0"] None Sample.world_AB _ _
              (surjective_pairing _)) as (_ & _ & Hframe & _).
  exact Hframe.
Defined.

(** C2: the database is unreachable; the call reports failure and holds
    no count, although the number of rows persisted is 0. *)
Lemma ingest_failure_has_no_count :
  ∃ error w',
    ingest_documents "A" ["alpha"; "beta"] None None (Some (0, "connection refused"))
      Sample.empty_world = (Ok (IngestFailure error), w') ∧
    length (rows w') - length (rows Sample.empty_world) = 0 ∧
    ingest_count (IngestFailure error) ≠ Some 0.
Proof.
  eexists _, _. split; [vm_compute; reflexivity |]. split; [reflexivity | discriminate].
Qed.

(** C6: one text ingested twice; the query with the text of the second
    chunk returns the first one on top. *)
Lemma roundtrip_duplicate_text :
  ∃ chunk top rest,
    drop (length (rows Sample.empty_world)) (rows Sample.world_dup) !! 1 = Some chunk ∧
    document chunk = "alpha" ∧
    cmetadata chunk !! "doc_id" = Some (VStr "d2") ∧
    (query_knowledge_base "A" (document chunk) 5 None Sample.world_dup).1
      = Ok (QuerySuccess "A" "alpha" (top :: rest) 2) ∧
    res_metadata top !! "doc_id" = Some (VStr "d1") ∧
    res_metadata top ≠ cmetadata chunk.
Proof.
  eexists _, _, _. split; [vm_compute; reflexivity |].
  split; [reflexivity |]. split; [vm_compute; reflexivity |].
  split; [vm_compute; reflexivity |]. split; [vm_compute; reflexivity |].
  intros Heq. apply (f_equal (λ m : Metadata, m !! "doc_id")) in Heq.
  vm_compute in Heq. discriminate Heq.
Qed.
End concrete_runs.

Section concrete_turns.
Import ConversationMemory AgentExecutor.

Lemma get_history_most_recent_witness :
  length (get_conversation_history Sample.ten_messages "s1" 5 false) = 5 ∧
  last (get_conversation_history Sample.ten_messages "s1" 5 false)
    = Some (AIMessage "Message 9").
Proof.
  split; [| vm_compute; reflexivity].
  destruct (get_history_most_recent Sample.ten_messages "s1" 5 false) as [_ Hrecent].
  destruct Hrecent as (older & kept & _ & Hlen & _ & _ & Himage).
  - refine (bool_decide_unpack _ _). vm_compute. exact I.
  - vm_compute. lia.
  - apply Forall2_length in Himage. by rewrite <- Himage.
Defined.

(** C4: two stored messages of unknown role and [max_messages = 1]: the
    history is empty. *)
Lemma history_drops_unknown_roles :
  length (filter (λ m, session_id m = "s1") Sample.strange_session) = 2 ∧
  1 < 2 ∧
  get_conversation_history Sample.strange_session "s1" 1 true = [] ∧
  get_conversation_history Sample.strange_session "s1" 1 false = [].
Proof. split_and!; [reflexivity | lia | reflexivity | reflexivity]. Qed.

Lemma select_tool_first_satisfiable_witness :
  select_tool [Sample.ToolA; Sample.ToolB] {["y" := "v"]} = Some Sample.ToolB ∧
  satisfiable {["y" := "v"]} Sample.ToolA = false ∧
  tool_calls [Sample.ToolA; Sample.ToolB] {["y" := "v"]} = ["ToolB"].
Proof.
  assert (Hsel : select_tool [Sample.ToolA; Sample.ToolB] {["y" := "v"]}
                 = Some Sample.ToolB) by reflexivity.
  split; [exact Hsel |]. split; [reflexivity |].
  destruct (select_tool_first_satisfiable [Sample.ToolA; Sample.ToolB] {["y" := "v"]})
    as (Hfirst & _ & _ & _).
  by destruct (Hfirst _ Hsel) as (_ & _ & _ & _ & _ & ?).
Defined.
End concrete_turns.

(** * Further facts about lists *)
Section list_counting.

Lemma filter_length_mono {A} (P Q : A → Prop) `{∀ x, Decision (P x)} `{∀ x, Decision (Q x)}
    (l : list A) :
  (∀ x, P x → Q x) → length (filter P l) ≤ length (filter Q l).
Proof.
  intros HPQ. induction l as [|x l IH]; [done |].
  rewrite !filter_cons. destruct (decide (P x)) as [HP|HP].
  - rewrite decide_True by auto. cbn. lia.
  - destruct (decide (Q x)); cbn; lia.
Qed.

Lemma filter_length_split {A} (P : A → Prop) `{∀ x, Decision (P x)} (l : list A) :
  length l = length (filter P l) + length (filter (λ x, ¬ P x) l).
Proof.
  induction l as [|x l IH]; [done |].
  rewrite !filter_cons. destruct (decide (P x)) as [HP|HP].
  - rewrite decide_False by auto. cbn. lia.
  - rewrite decide_True by auto. cbn. lia.
Qed.

Lemma filter_idemp {A} (P : A → Prop) `{∀ x, Decision (P x)} (l : list A) :
  filter P (filter P l) = filter P l.
Proof. rewrite list_filter_filter. apply list_filter_iff. tauto. Qed.

End list_counting.


(** * Further properties of the document processor *)

Section processor_contents.
Context {env : Environment}.
Import DocumentProcessor.

Lemma number_chunks_contents i chunks :
  page_content <$> number_chunks i chunks = page_content <$> chunks.
Proof. revert i. induction chunks as [|c rest IH]; intros i; simpl; [done | by rewrite IH]. Qed.

Lemma split_documents_contents documents :
  page_content <$> split_documents documents = pieces documents.
Proof.
  unfold split_documents, pieces. induction documents as [|d rest IH]; [done |].
  cbn. rewrite fmap_app, IH. f_equal.
  rewrite <- list_fmap_compose. apply list_fmap_id.
Qed.

Lemma chunk_documents_page_contents documents add_chunk_metadata :
  page_content <$> chunk_documents documents add_chunk_metadata = pieces documents.
Proof.
  unfold chunk_documents. destruct add_chunk_metadata; [| apply split_documents_contents].
  rewrite <- list_fmap_compose.
  transitivity (page_content <$> number_chunks 0 (split_documents documents)).
  - by apply list_fmap_ext.
  - by rewrite number_chunks_contents, split_documents_contents.
Qed.

(** X1.  With or without chunk metadata, the chunks that
    [chunk_documents] returns hold exactly the pieces that the splitter
    makes of the documents, document after document and piece after
    piece: no piece is dropped, repeated or moved.  Documents of which
    the splitter makes no piece, an empty list of documents among them,
    give no chunk. *)
Theorem chunk_documents_contents (documents : list Document) (add_chunk_metadata : bool) :
  page_content <$> chunk_documents documents add_chunk_metadata = pieces documents ∧
  (pieces documents = [] → chunk_documents documents add_chunk_metadata = []).
Proof.
  pose proof (chunk_documents_page_contents documents add_chunk_metadata) as H.
  split; [done |]. intros Hnone. rewrite Hnone in H. by apply fmap_nil_inv in H.
Qed.

Lemma split_documents_elem documents chunk :
  chunk ∈ split_documents documents →
  ∃ d, d ∈ documents ∧ page_content chunk ∈ split_text (page_content d) ∧
       metadata chunk = metadata d.
Proof.
  unfold split_documents. intros (d & Hc & Hd)%list_elem_of_bind.
  apply list_elem_of_fmap in Hc as (piece & -> & Hp). by exists d.
Qed.

Lemma number_chunks_elem i chunks c :
  c ∈ number_chunks i chunks →
  ∃ c0 j, c0 ∈ chunks ∧ c = set_meta "chunk_index" (VInt (Z.of_nat j)) c0.
Proof.
  intros (j & Hj)%list_elem_of_lookup_1.
  apply number_chunks_lookup in Hj as (c0 & Hc0 & ->).
  exists c0, (i + j). split; [by eapply list_elem_of_lookup_2 | done].
Qed.

(** X2.  [chunk_documents] preserves the metadata of its source: every
    chunk is a piece of one of the documents and agrees with the metadata
    of that document on every key other than [chunk_index] and
    [chunk_total]; without chunk metadata it has that metadata and
    nothing else. *)
Theorem chunk_documents_preserves_metadata (documents : list Document)
    (add_chunk_metadata : bool) (chunk : Document) :
  chunk ∈ chunk_documents documents add_chunk_metadata →
  ∃ d, d ∈ documents ∧
    page_content chunk ∈ split_text (page_content d) ∧
    (∀ k, k ≠ "chunk_index" → k ≠ "chunk_total" →
       metadata chunk !! k = metadata d !! k) ∧
    (add_chunk_metadata = false → metadata chunk = metadata d).
Proof.
  unfold chunk_documents. destruct add_chunk_metadata.
  - intros (c1 & -> & Hc1)%list_elem_of_fmap.
    apply number_chunks_elem in Hc1 as (c0 & j & Hc0 & ->).
    apply split_documents_elem in Hc0 as (d & Hd & Hp & Hm).
    exists d. split_and!; [done | done | | done].
    intros k Hk1 Hk2. unfold set_meta. cbn.
    by rewrite !lookup_insert_ne, Hm.
  - intros (d & Hd & Hp & Hm)%split_documents_elem. exists d.
    split_and!; [done | done | by intros; rewrite Hm | done].
Qed.

(** ** enrich_metadata *)

Lemma dict_snoc items k v : dict (items ++ [(k, v)]) = <[k := v]> (dict items).
Proof. unfold dict. by rewrite foldl_app. Qed.

Lemma add_items_lookup items (m : Metadata) k :
  add_items items m !! k =
  if decide (k = "tenant_id") then m !! k
  else match dict items !! k with Some v => Some v | None => m !! k end.
Proof.
  induction items as [|[k' v'] items IH] using rev_ind.
  - cbn. by destruct (decide _).
  - rewrite dict_snoc. unfold add_items in *. rewrite foldl_app. cbn.
    destruct (decide (k' = "tenant_id")) as [->|Hk'].
    + rewrite IH. destruct (decide (k = "tenant_id")) as [|Hk]; [done |].
      by rewrite lookup_insert_ne.
    + destruct (decide (k = k')) as [->|Hne].
      * rewrite !lookup_insert_eq. by rewrite decide_False.
      * rewrite !lookup_insert_ne by done. apply IH.
Qed.

Lemma enrich_metadata_spec documents tenant_id additional_metadata clock :
  (enrich_metadata documents tenant_id additional_metadata clock).2
    = clock + length documents ∧
  length (enrich_metadata documents tenant_id additional_metadata clock).1
    = length documents ∧
  ∀ i doc, documents !! i = Some doc →
    ∃ out,
      (enrich_metadata documents tenant_id additional_metadata clock).1 !! i = Some out ∧
      page_content out = page_content doc ∧
      ∀ k, metadata out !! k =
        if decide (k = "tenant_id") then Some (VStr tenant_id)
        else match dict (default [] additional_metadata) !! k with
             | Some v => Some v
             | None =>
                 if decide (k = "ingested_at")
                 then Some (VStr (utcnow_isoformat (clock + i)))
                 else metadata doc !! k
             end.
Proof.
  revert clock. induction documents as [|d rest IH]; intros clock.
  - cbn. split_and!; [lia | done | done].
  - cbn [enrich_metadata]. specialize (IH (S clock)).
    destruct (enrich_metadata rest _ _ _) as [rest' clock'].
    cbn [fst snd] in *. destruct IH as (Hclock & Hlen & Hall).
    split_and!; [cbn; lia | cbn; by rewrite Hlen |].
    intros [|i] doc Hdoc; cbn in Hdoc.
    + injection Hdoc as <-. eexists. split_and!; [done | done |].
      intros k. cbn. rewrite add_items_lookup.
      destruct (decide (k = "tenant_id")) as [->|Hk].
      * by rewrite lookup_insert_ne, lookup_insert_eq.
      * destruct (dict _ !! k); [done |].
        destruct (decide (k = "ingested_at")) as [->|Hk'].
        -- by rewrite lookup_insert_eq, Nat.add_0_r.
        -- by rewrite !lookup_insert_ne.
    + destruct (Hall i doc Hdoc) as (out & Hout & Hpc & Hk).
      exists out. split_and!; [done | done |].
      intros k. rewrite Hk. by replace (S clock + i) with (clock + S i) by lia.
Qed.

(** X3.  [enrich_metadata] returns as many documents as it is given,
    with the same contents in the same order, and reads the clock once
    per document.  In the document at position [i], [tenant_id] is the
    tenant of the call; any other key of [additional_metadata] holds the
    value given there, so that [additional_metadata] replaces entries
    that exist, [ingested_at] included; failing that, [ingested_at] is
    reading [i] of the clock and every other key is as it was. *)
Theorem enrich_metadata_fields (documents : list Document) (tenant_id : string)
    (additional_metadata : option (list (string * pyval))) (clock : nat) :
  (enrich_metadata documents tenant_id additional_metadata clock).2
    = clock + length documents ∧
  length (enrich_metadata documents tenant_id additional_metadata clock).1
    = length documents ∧
  ∀ i doc, documents !! i = Some doc →
    ∃ out,
      (enrich_metadata documents tenant_id additional_metadata clock).1 !! i = Some out ∧
      page_content out = page_content doc ∧
      ∀ k, metadata out !! k =
        if decide (k = "tenant_id") then Some (VStr tenant_id)
        else match dict (default [] additional_metadata) !! k with
             | Some v => Some v
             | None =>
                 if decide (k = "ingested_at")
                 then Some (VStr (utcnow_isoformat (clock + i)))
                 else metadata doc !! k
             end.
Proof. apply enrich_metadata_spec. Qed.

Lemma chunk_documents_lookup documents i :
  i < length (pieces documents) →
  ∃ chunk piece,
    chunk_documents documents true !! i = Some chunk ∧
    split_documents documents !! i = Some piece ∧
    page_content chunk = page_content piece ∧
    metadata chunk = <["chunk_total" := VInt (Z.of_nat (length (pieces documents)))]>
                       (<["chunk_index" := VInt (Z.of_nat i)]> (metadata piece)).
Proof.
  rewrite <- split_documents_contents, length_fmap. intros Hi.
  unfold chunk_documents. rewrite number_chunks_length.
  destruct (lookup_lt_is_Some_2 (number_chunks 0 (split_documents documents)) i)
    as [c Hc]; [by rewrite number_chunks_length |].
  destruct (number_chunks_lookup _ _ _ _ Hc) as (piece & Hp & ->).
  eexists _, piece. rewrite list_lookup_fmap, Hc. by split_and!.
Qed.

(** X4.  [process_text] returns one chunk per piece of the text, in
    order (none for a text without pieces), and reads the clock once per
    chunk.  Every chunk carries the tenant of the call.  Each key of the
    caller's metadata other than [tenant_id] keeps the caller's value,
    [chunk_index], [chunk_total] and [ingested_at] included; where the
    caller names none of these, [chunk_index] is the position of the
    chunk, [chunk_total] the number of chunks and [ingested_at] the
    reading of the clock. *)
Theorem process_text_chunks (text tenant_id : string)
    (text_metadata : option (list (string * pyval))) (clock : nat) :
  (process_text text tenant_id text_metadata clock).2
    = clock + length (split_text text) ∧
  page_content <$> (process_text text tenant_id text_metadata clock).1
    = split_text text ∧
  ∀ i chunk, (process_text text tenant_id text_metadata clock).1 !! i = Some chunk →
    metadata chunk !! "tenant_id" = Some (VStr tenant_id) ∧
    (∀ k v, k ≠ "tenant_id" →
       dict (default [] text_metadata) !! k = Some v → metadata chunk !! k = Some v) ∧
    (dict (default [] text_metadata) !! "chunk_index" = None →
       metadata chunk !! "chunk_index" = Some (VInt (Z.of_nat i))) ∧
    (dict (default [] text_metadata) !! "chunk_total" = None →
       metadata chunk !! "chunk_total"
         = Some (VInt (Z.of_nat (length (split_text text))))) ∧
    (dict (default [] text_metadata) !! "ingested_at" = None →
       metadata chunk !! "ingested_at" = Some (VStr (utcnow_isoformat (clock + i)))).
Proof.
  unfold process_text.
  set (doc := mkDocument text (dict (default [] text_metadata))).
  assert (Hpieces : pieces [doc] = split_text text).
  { unfold pieces. cbn. by rewrite app_nil_r. }
  destruct (enrich_metadata_spec (chunk_documents [doc] true) tenant_id text_metadata clock)
    as (Hclock & Hlen & Hall).
  assert (Hn : length (chunk_documents [doc] true) = length (split_text text)).
  { rewrite <- Hpieces, <- (chunk_documents_page_contents [doc] true).
    by rewrite length_fmap. }
  split_and!.
  - by rewrite Hclock, Hn.
  - rewrite <- Hpieces, <- (chunk_documents_page_contents [doc] true).
    apply list_eq. intros i. rewrite !list_lookup_fmap.
    destruct (chunk_documents [doc] true !! i) as [c|] eqn:Hc.
    + destruct (Hall i c Hc) as (out & -> & Hpc & _). cbn. by rewrite Hpc.
    + apply lookup_ge_None in Hc. rewrite <- Hlen in Hc.
      apply lookup_ge_None in Hc. by rewrite Hc.
  - intros i chunk Hchunk.
    assert (Hi : i < length (pieces [doc])).
    { apply lookup_lt_Some in Hchunk. rewrite Hlen, Hn in Hchunk. by rewrite Hpieces. }
    destruct (chunk_documents_lookup [doc] i Hi) as (c & piece & Hc & Hp & _ & Hm).
    destruct (Hall i c Hc) as (out & Hout & _ & Hk).
    rewrite Hchunk in Hout. injection Hout as <-.
    split_and!.
    + by rewrite Hk.
    + intros k v Hne Hv. by rewrite Hk, decide_False, Hv.
    + intros Hnone. rewrite Hk, Hnone. cbn. rewrite Hm.
      by rewrite lookup_insert_ne, lookup_insert_eq.
    + intros Hnone. rewrite Hk, Hnone. cbn. rewrite Hm.
      by rewrite lookup_insert_eq, Hpieces.
    + intros Hnone. by rewrite Hk, Hnone.
Qed.

End processor_contents.

(** * Further properties of the RAG service *)

(** ** Ingestion, step by step *)

Section ingestion_steps.
Context {env : Environment}.
Import RAGService.

Implicit Types (w : World) (h : gmap nat Metadata).

Lemma for_each_cons {A B} (f : A → Py B) x rest w :
  for_each f (x :: rest) w =
  match f x w with
  | (Ok y, w1) =>
      match for_each f rest w1 with
      | (Ok ys, w2) => (Ok (y :: ys), w2)
      | (Raise e, w2) => (Raise e, w2)
      end
  | (Raise e, w1) => (Raise e, w1)
  end.
Proof.
  cbn [for_each]. unfold mbind, Py_bind. destruct (f x w) as [[y|e] w1]; [| done].
  by destruct (for_each f rest w1) as [[ys|e] w2].
Qed.

Lemma for_each_alloc {A} (g : A → Metadata) (xs : list A) w :
  ∃ h',
    for_each (λ x, alloc (g x)) xs w
      = (Ok (seq (next_loc w) (length xs)),
         mkWorld h' (next_loc w + length xs) (rows w) (uuids_drawn w) (clock_reads w)) ∧
    (∀ i x, xs !! i = Some x → deref h' (next_loc w + i) = g x) ∧
    (∀ l, l < next_loc w → deref h' l = deref (heap w) l).
Proof.
  revert w. induction xs as [|x rest IH]; intros [h n table u c].
  - exists h. cbn. rewrite Nat.add_0_r. done.
  - rewrite for_each_cons. cbv beta.
    assert (Hstep : alloc (g x) (mkWorld h n table u c)
                    = (Ok n, mkWorld (<[n := g x]> h) (S n) table u c)) by done.
    rewrite Hstep.
    destruct (IH (mkWorld (<[n := g x]> h) (S n) table u c)) as (h' & -> & Hnew & Hold).
    cbn [heap next_loc rows uuids_drawn clock_reads length] in *.
    exists h'. split_and!.
    + cbn. do 3 f_equal. lia.
    + intros [|i] y Hy; cbn in Hy.
      * injection Hy as <-. rewrite Nat.add_0_r, Hold by lia. apply deref_insert_eq.
      * replace (n + S i) with (S n + i) by lia. by apply Hnew.
    + intros l Hl. rewrite Hold by lia. apply deref_insert_ne. lia.
Qed.

Lemma for_each_new_uuid {A} (xs : list A) w :
  for_each (λ _, new_uuid) xs w
  = (Ok (uuid4 <$> seq (uuids_drawn w) (length xs)),
     mkWorld (heap w) (next_loc w) (rows w) (uuids_drawn w + length xs) (clock_reads w)).
Proof.
  revert w. induction xs as [|x rest IH]; intros [h n table u c].
  - cbn. by rewrite Nat.add_0_r.
  - rewrite for_each_cons. cbv beta.
    assert (Hstep : new_uuid (mkWorld h n table u c)
                    = (Ok (uuid4 u), mkWorld h n table (S u) c)) by done.
    rewrite Hstep, IH. cbn. do 3 f_equal. lia.
Qed.

(** The three entries that the loop of [ingest_documents] writes. *)
Lemma stamp_metadata_exact tenant_id ids i ms w :
  i + length ms ≤ length ids →
  ∃ h',
    stamp_metadata tenant_id ids i ms w
      = (Ok (), mkWorld h' (next_loc w) (rows w) (uuids_drawn w)
                  (clock_reads w + length ms)) ∧
    (NoDup ms → ∀ j l, ms !! j = Some l →
       ∃ id, ids !! (i + j) = Some id ∧
         deref h' l = <["ingested_at" := VStr (utcnow_isoformat (clock_reads w + j))]>
                        (<["doc_id" := VStr id]>
                           (<["tenant_id" := VStr tenant_id]> (deref (heap w) l)))) ∧
    (∀ l, l ∉ ms → deref h' l = deref (heap w) l).
Proof.
  revert i w. induction ms as [|m rest IH]; intros i [h n table u c] Hlen.
  - exists h. cbn. rewrite Nat.add_0_r. done.
  - cbn [length] in Hlen. cbn [stamp_metadata].
    unfold mbind, Py_bind, setitem, getitem, utcnow.
    cbn [heap next_loc rows uuids_drawn clock_reads].
    destruct (lookup_lt_is_Some_2 ids i) as [id Hid]; [lia |]. rewrite Hid. cbn.
    rewrite !deref_insert_eq.
    match goal with
    | |- context [stamp_metadata _ _ _ _ ?w1] =>
        destruct (IH (S i) w1) as (h' & -> & Hnew & Hold); [lia |]
    end.
    cbn [heap next_loc rows uuids_drawn clock_reads] in *.
    exists h'. split_and!.
    + cbn [length]. by replace (c + S (length rest)) with (S c + length rest) by lia.
    + intros [Hm Hnd]%NoDup_cons [|j] l Hl; cbn in Hl.
      * injection Hl as <-. exists id. rewrite Nat.add_0_r. split; [done |].
        rewrite Hold by done. by rewrite deref_insert_eq, Nat.add_0_r.
      * destruct (Hnew Hnd j l Hl) as (id' & Hid' & Hl').
        exists id'. split; [by replace (i + S j) with (S i + j) by lia |].
        rewrite Hl'. assert (m ≠ l) by (intros ->; by apply list_elem_of_lookup_2 in Hl).
        rewrite !deref_insert_ne by done.
        by replace (S c + j) with (c + S j) by lia.
    + intros l Hl. apply not_elem_of_cons in Hl as [Hne Hl].
      rewrite Hold by done. by rewrite !deref_insert_ne.
Qed.

(** [ids[i]] beyond the end of the list. *)
Lemma stamp_metadata_short tenant_id ids i ms w :
  i ≤ length ids → length ids < i + length ms →
  ∃ w', stamp_metadata tenant_id ids i ms w = (Raise "list index out of range", w') ∧
        rows w' = rows w.
Proof.
  revert i w. induction ms as [|m rest IH]; intros i [h n table u c] Hi Hlen.
  - cbn in Hlen. lia.
  - cbn [stamp_metadata]. unfold mbind, Py_bind, setitem, getitem, utcnow.
    cbn [heap next_loc rows uuids_drawn clock_reads].
    destruct (ids !! i) as [id|] eqn:Hid; cbn.
    + apply lookup_lt_Some in Hid.
      match goal with
      | |- context [stamp_metadata _ _ _ _ ?w1] =>
          destruct (IH (S i) w1) as (w' & -> & Hrows); [lia | cbn in Hlen; lia |]
      end.
      by exists w'.
    + by eexists.
Qed.

(** The identifiers and the dictionaries that [ingest_documents] works
    with, once the defaults are filled in. *)
Lemma ingest_documents_defaults (documents : list string) (metadatas : option (list nat))
    (ids : option (list string)) w :
  ∃ ms hb nb u,
    (match ids with
     | Some ids => mret ids
     | None => for_each (λ _, new_uuid) documents
     end : Py (list string)) w
    = (Ok (default (uuid4 <$> seq (uuids_drawn w) (length documents)) ids),
       mkWorld (heap w) (next_loc w) (rows w) u (clock_reads w)) ∧
    (match metadatas with
     | Some metadatas => mret metadatas
     | None => for_each (λ _, alloc ∅) documents
     end : Py (list nat)) (mkWorld (heap w) (next_loc w) (rows w) u (clock_reads w))
    = (Ok ms, mkWorld hb nb (rows w) u (clock_reads w)) ∧
    length (default (uuid4 <$> seq (uuids_drawn w) (length documents)) ids)
      = from_option (@length string) (length documents) ids ∧
    length ms = from_option (@length nat) (length documents) metadatas ∧
    (from_option NoDup True metadatas → NoDup ms) ∧
    (∀ ms0, metadatas = Some ms0 → ms = ms0 ∧ hb = heap w) ∧
    ∀ i l, ms !! i = Some l → deref hb l = caller_metadata w metadatas i.
Proof.
  assert (Hids : ∃ u,
    (match ids with
     | Some ids => mret ids
     | None => for_each (λ _, new_uuid) documents
     end : Py (list string)) w
    = (Ok (default (uuid4 <$> seq (uuids_drawn w) (length documents)) ids),
       mkWorld (heap w) (next_loc w) (rows w) u (clock_reads w)) ∧
    length (default (uuid4 <$> seq (uuids_drawn w) (length documents)) ids)
      = from_option (@length string) (length documents) ids).
  { destruct ids as [ids0|]; cbn.
    - exists (uuids_drawn w). by destruct w.
    - eexists. rewrite for_each_new_uuid. split; [done |].
      by rewrite length_fmap, length_seq. }
  destruct Hids as (u & Hids & Hlen_ids).
  destruct metadatas as [ms|]; cbn.
  - exists ms, (heap w), (next_loc w), u. split_and!; try done.
    + by intros ms0 [= <-].
    + intros i l Hl. by rewrite Hl.
  - destruct (for_each_alloc (λ _ : string, ∅) documents
                (mkWorld (heap w) (next_loc w) (rows w) u (clock_reads w)))
      as (hb & Hrun & Hnew & _).
    cbn [heap next_loc rows uuids_drawn clock_reads] in *.
    eexists _, hb, _, u. split_and!; [done | exact Hrun | done | apply length_seq | | done |].
    + intros _. apply NoDup_seq.
    + intros i l Hl. apply lookup_seq in Hl as [-> Hi].
      destruct (lookup_lt_is_Some_2 documents i Hi) as [doc Hdoc].
      by apply (Hnew i doc).
Qed.

Lemma ingest_documents_exact tenant_id documents metadatas ids w :
  from_option (@length nat) (length documents) metadatas
    ≤ from_option (@length string) (length documents) ids →
  ∃ hc nb u new,
    (∀ fault,
       ingest_documents tenant_id documents metadatas ids fault w
       = match fault with
         | None =>
             match new with
             | [] =>
                 (Ok (IngestFailure ("Failed to ingest documents: "
                                     +:+ "null value violates not-null constraint")),
                  mkWorld hc nb (rows w) u
                    (clock_reads w
                     + from_option (@length nat) (length documents) metadatas))
             | _ :: _ =>
                 (Ok (IngestSuccess tenant_id collection_name (length documents)
                        (default (uuid4 <$> seq (uuids_drawn w) (length documents)) ids)),
                  mkWorld hc nb (rows w ++ new) u
                    (clock_reads w
                     + from_option (@length nat) (length documents) metadatas))
             end
         | Some (n, e) =>
             (Ok (IngestFailure ("Failed to ingest documents: " +:+ e)),
              mkWorld hc nb (rows w ++ take n new) u
                (clock_reads w + from_option (@length nat) (length documents) metadatas))
         end) ∧
    length new = length documents `min` from_option (@length nat) (length documents) metadatas ∧
    (∀ i r, new !! i = Some r →
       documents !! i = Some (document r) ∧ embedding r = embed (document r)) ∧
    (from_option NoDup True metadatas → ∀ i r, new !! i = Some r →
       ∃ id,
         default (uuid4 <$> seq (uuids_drawn w) (length documents)) ids !! i = Some id ∧
         cmetadata r
         = <["ingested_at" := VStr (utcnow_isoformat (clock_reads w + i))]>
             (<["doc_id" := VStr id]>
                (<["tenant_id" := VStr tenant_id]> (caller_metadata w metadatas i)))) ∧
    (∀ ms, metadatas = Some ms →
       (NoDup ms → ∀ j l, ms !! j = Some l →
          ∃ id,
            default (uuid4 <$> seq (uuids_drawn w) (length documents)) ids !! j = Some id ∧
            deref hc l
            = <["ingested_at" := VStr (utcnow_isoformat (clock_reads w + j))]>
                (<["doc_id" := VStr id]>
                   (<["tenant_id" := VStr tenant_id]> (deref (heap w) l)))) ∧
       (∀ l, l ∉ ms → deref hc l = deref (heap w) l)).
Proof.
  intros Hlen.
  destruct (ingest_documents_defaults documents metadatas ids w)
    as (ms & hb & nb & u & Hids & Hms & Hlen_ids & Hlen_ms & Hnd & Hsome & Hderef).
  set (ids' := default (uuid4 <$> seq (uuids_drawn w) (length documents)) ids) in *.
  destruct (stamp_metadata_exact tenant_id ids' 0 ms
              (mkWorld hb nb (rows w) u (clock_reads w)))
    as (hc & Hstamp & Hnew & Hold); [cbn; lia |].
  cbn [heap next_loc rows uuids_drawn clock_reads] in *.
  exists hc, nb, u,
    (to_row <$> zip_with (λ doc meta, mkDocument doc (deref hc meta)) documents ms).
  split_and!.
  - intros fault. unfold ingest_documents, try_except, mbind, Py_bind.
    fold ids'. rewrite Hids, Hms, Hstamp. rewrite Hlen_ms.
    unfold make_docs, add_documents, insert_rows.
    destruct fault as [[n e]|]; [done |]. cbn.
    by destruct (zip_with _ documents ms).
  - by rewrite length_fmap, length_zip_with, Hlen_ms.
  - intros i r Hr. rewrite list_lookup_fmap in Hr.
    destruct (zip_with _ documents ms !! i) as [d|] eqn:Hd; [| done].
    injection Hr as <-.
    by apply lookup_zip_with_Some in Hd as (doc & l & -> & Hdoc & Hl).
  - intros Hnd0 i r Hr. rewrite list_lookup_fmap in Hr.
    destruct (zip_with _ documents ms !! i) as [d|] eqn:Hd; [| done].
    injection Hr as <-.
    apply lookup_zip_with_Some in Hd as (doc & l & -> & Hdoc & Hl).
    destruct (Hnew (Hnd Hnd0) i l Hl) as (id & Hid & Hmeta). cbn in Hid.
    exists id. split; [done |]. cbn. by rewrite Hmeta, (Hderef i l Hl).
  - intros ms0 ->. destruct (Hsome ms0 eq_refl) as [-> ->]. split; [| done].
    intros Hnd0 j l Hl. by destruct (Hnew Hnd0 j l Hl) as (id & Hid & Hmeta); exists id.
Qed.

(** [ids] shorter than the list of dictionaries. *)
Lemma ingest_documents_short tenant_id documents metadatas ids fault w :
  from_option (@length string) (length documents) ids
    < from_option (@length nat) (length documents) metadatas →
  ∃ w',
    ingest_documents tenant_id documents metadatas ids fault w
      = (Ok (IngestFailure "Failed to ingest documents: list index out of range"), w') ∧
    rows w' = rows w.
Proof.
  intros Hlen.
  destruct (ingest_documents_defaults documents metadatas ids w)
    as (ms & hb & nb & u & Hids & Hms & Hlen_ids & Hlen_ms & _).
  set (ids' := default (uuid4 <$> seq (uuids_drawn w) (length documents)) ids) in *.
  destruct (stamp_metadata_short tenant_id ids' 0 ms
              (mkWorld hb nb (rows w) u (clock_reads w)))
    as (wc & Hstamp & Hrows); [lia | cbn; lia |].
  exists wc. unfold ingest_documents, try_except, mbind, Py_bind.
  fold ids'. by rewrite Hids, Hms, Hstamp.
Qed.

End ingestion_steps.

(** ** Ingestion, statistics and deletion *)

Section service_contracts.
Context {env : Environment}.
Import RAGService.

Implicit Types (w : World) (h : gmap nat Metadata).

Lemma stamped_entries tenant_id id now (m : Metadata) :
  let m' := <["ingested_at" := VStr now]>
              (<["doc_id" := VStr id]> (<["tenant_id" := VStr tenant_id]> m)) in
  m' !! "tenant_id" = Some (VStr tenant_id) ∧
  m' !! "doc_id" = Some (VStr id) ∧
  m' !! "ingested_at" = Some (VStr now) ∧
  ∀ k, k ≠ "tenant_id" → k ≠ "doc_id" → k ≠ "ingested_at" → m' !! k = m !! k.
Proof.
  cbn. split_and!.
  - do 2 rewrite lookup_insert_ne by done. by rewrite lookup_insert_eq.
  - rewrite lookup_insert_ne by done. by rewrite lookup_insert_eq.
  - by rewrite lookup_insert_eq.
  - intros k ? ? ?. by rewrite !lookup_insert_ne.
Qed.

(** An empty batch: the database refuses the empty [INSERT] and the call
    reports a failure. *)
Lemma ingest_documents_empty_batch (tenant_id : string) (ids : option (list string)) w :
  ∃ e w',
    ingest_documents tenant_id [] None ids None w = (Ok (IngestFailure e), w') ∧
    rows w' = rows w.
Proof.
  destruct (ingest_documents_exact tenant_id [] None ids w)
    as (hc & nb & u & new & Hrun & Hlen_new & _); [cbn; lia |].
  cbn in Hlen_new. apply nil_length_inv in Hlen_new. subst new.
  rewrite (Hrun None). by eexists _, _.
Qed.

(** X5.  With a database that answers, at least one document and one
    dictionary (an empty batch is refused by the database),
    dictionaries that are distinct objects and no fewer ids than
    dictionaries, [ingest_documents] succeeds, reports [document_count = len(documents)] with the ids
    (those given, or the ones it draws), and appends one row per pair of
    [zip(documents, metadatas)].  Row [i] holds document [i] and its
    embedding, the tenant of the call, [doc_id = ids[i]], reading [i] of
    the clock as [ingested_at], and under every other key what the
    caller's dictionary held. *)
Theorem ingest_documents_writes (tenant_id : string) (documents : list string)
    (metadatas : option (list nat)) (ids : option (list string)) w :
  documents ≠ [] → metadatas ≠ Some [] →
  from_option NoDup True metadatas →
  from_option (@length nat) (length documents) metadatas
    ≤ from_option (@length string) (length documents) ids →
  ∃ ids' w' new,
    ingest_documents tenant_id documents metadatas ids None w
      = (Ok (IngestSuccess tenant_id collection_name (length documents) ids'), w') ∧
    ids' = default (uuid4 <$> seq (uuids_drawn w) (length documents)) ids ∧
    rows w' = rows w ++ new ∧
    length new
      = length documents `min` from_option (@length nat) (length documents) metadatas ∧
    ∀ i r, new !! i = Some r →
      documents !! i = Some (document r) ∧
      embedding r = embed (document r) ∧
      cmetadata r !! "tenant_id" = Some (VStr tenant_id) ∧
      cmetadata r !! "doc_id" = VStr <$> ids' !! i ∧
      cmetadata r !! "ingested_at"
        = Some (VStr (utcnow_isoformat (clock_reads w + i))) ∧
      ∀ k, k ≠ "tenant_id" → k ≠ "doc_id" → k ≠ "ingested_at" →
        cmetadata r !! k = caller_metadata w metadatas i !! k.
Proof.
  intros Hdocs Hms Hnd Hlen.
  destruct (ingest_documents_exact tenant_id documents metadatas ids w Hlen)
    as (hc & nb & u & new & Hrun & Hlen_new & Hdoc & Hmeta & _).
  specialize (Hrun None). cbn beta iota in Hrun.
  assert (Hsome : new ≠ []).
  { intros ->. cbn in Hlen_new. destruct documents as [|d ds]; [done |].
    destruct metadatas as [[|m ms]|]; [done | cbn in Hlen_new; lia..]. }
  destruct new as [|r0 new0] eqn:Hnew_eq; [done |]. rewrite <- Hnew_eq in *.
  eexists _, _, new. split_and!; [exact Hrun | done | done | done |].
  intros i r Hr. destruct (Hdoc i r Hr) as [? ?].
  destruct (Hmeta Hnd i r Hr) as (id & Hid & ->). rewrite Hid. cbn.
  destruct (stamped_entries tenant_id id (utcnow_isoformat (clock_reads w + i))
              (caller_metadata w metadatas i)) as (? & ? & ? & ?).
  by split_and!.
Qed.

(** X6.  [ingest_documents] writes into the caller's own dictionaries.
    After the call, whether the database has failed or not, the
    dictionary at position [i] holds the tenant of the call, [ids[i]]
    and the time of the stamping; its other entries are as before, and
    no other dictionary has changed. *)
Theorem ingest_documents_stamps_caller_dictionaries (tenant_id : string)
    (documents : list string) (metadatas : list nat) (ids : option (list string))
    (fault : option (nat * string)) w :
  NoDup metadatas →
  length metadatas ≤ from_option (@length string) (length documents) ids →
  ∃ res w',
    ingest_documents tenant_id documents (Some metadatas) ids fault w = (Ok res, w') ∧
    (∀ i l, metadatas !! i = Some l →
       deref (heap w') l !! "tenant_id" = Some (VStr tenant_id) ∧
       deref (heap w') l !! "doc_id"
         = VStr <$> default (uuid4 <$> seq (uuids_drawn w) (length documents)) ids !! i ∧
       deref (heap w') l !! "ingested_at"
         = Some (VStr (utcnow_isoformat (clock_reads w + i))) ∧
       ∀ k, k ≠ "tenant_id" → k ≠ "doc_id" → k ≠ "ingested_at" →
         deref (heap w') l !! k = deref (heap w) l !! k) ∧
    (∀ l, l ∉ metadatas → deref (heap w') l = deref (heap w) l).
Proof.
  intros Hnd Hlen.
  destruct (ingest_documents_exact tenant_id documents (Some metadatas) ids w Hlen)
    as (hc & nb & u & new & Hrun & _ & _ & _ & Hheap).
  destruct (Hheap metadatas eq_refl) as [Hnew Hold].
  assert (Hw : ∃ res table c,
    ingest_documents tenant_id documents (Some metadatas) ids fault w
    = (Ok res, mkWorld hc nb table u c)).
  { rewrite (Hrun fault). destruct fault as [[n e]|]; [by eexists _, _, _ |].
    destruct new; by eexists _, _, _. }
  destruct Hw as (res & table & c & Hw). rewrite Hw.
  eexists _, _. split; [done |]. cbn [heap]. split; [| done].
  intros i l Hl. destruct (Hnew Hnd i l Hl) as (id & Hid & ->). rewrite Hid. cbn.
  apply stamped_entries.
Qed.

(** X7.  With fewer ids than dictionaries (than documents, when no
    dictionaries are given; with ids drawn by the call, when there are
    more dictionaries than documents) the loop reads [ids[i]] past the
    end of the list: the call returns the failure "Failed to ingest
    documents: list index out of range" and the table is as before. *)
Theorem ingest_documents_index_error (tenant_id : string) (documents : list string)
    (metadatas : option (list nat)) (ids : option (list string))
    (fault : option (nat * string)) w :
  from_option (@length string) (length documents) ids
    < from_option (@length nat) (length documents) metadatas →
  ∃ w',
    ingest_documents tenant_id documents metadatas ids fault w
      = (Ok (IngestFailure "Failed to ingest documents: list index out of range"), w') ∧
    rows w' = rows w.
Proof.
  intros Hlen.
  destruct (ingest_documents_defaults documents metadatas ids w)
    as (ms & hb & nb & u & Hids & Hms & Hlen_ids & Hlen_ms & _).
  set (ids' := default (uuid4 <$> seq (uuids_drawn w) (length documents)) ids) in *.
  destruct (stamp_metadata_short tenant_id ids' 0 ms
              (mkWorld hb nb (rows w) u (clock_reads w)))
    as (wc & Hstamp & Hrows); [lia | cbn; lia |].
  exists wc. unfold ingest_documents, try_except, mbind, Py_bind.
  fold ids'. by rewrite Hids, Hms, Hstamp.
Qed.

Lemma written_documents (documents : list string) (new : list Row) :
  length new ≤ length documents →
  (∀ i r, new !! i = Some r → documents !! i = Some (document r)) →
  document <$> new = take (length new) documents.
Proof.
  intros Hlen Hdoc. apply list_eq. intros i. rewrite list_lookup_fmap.
  destruct (new !! i) as [r|] eqn:Hr; cbn.
  - rewrite lookup_take_lt by (by eapply lookup_lt_Some). symmetry. by apply Hdoc.
  - apply lookup_ge_None in Hr. symmetry. apply lookup_ge_None.
    rewrite length_take. lia.
Qed.

(** X8.  With fewer dictionaries than documents, but at least one,
    [zip] stops at the shorter list: the call succeeds and reports [document_count =
    len(documents)], yet only the first [len(metadatas)] documents are
    written. *)
Theorem ingest_documents_zip_truncates (tenant_id : string) (documents : list string)
    (metadatas : list nat) (ids : option (list string)) w :
  metadatas ≠ [] →
  length metadatas < length documents →
  length metadatas ≤ from_option (@length string) (length documents) ids →
  ∃ ids' w' new,
    ingest_documents tenant_id documents (Some metadatas) ids None w
      = (Ok (IngestSuccess tenant_id collection_name (length documents) ids'), w') ∧
    rows w' = rows w ++ new ∧
    length new = length metadatas ∧
    document <$> new = take (length metadatas) documents.
Proof.
  intros Hms Hshort Hlen.
  destruct (ingest_documents_exact tenant_id documents (Some metadatas) ids w Hlen)
    as (hc & nb & u & new & Hrun & Hlen_new & Hdoc & _).
  cbn in Hlen_new. specialize (Hrun None). cbn beta iota in Hrun.
  assert (Hsome : new ≠ []).
  { intros ->. destruct metadatas; [done | cbn in Hlen_new, Hshort; lia]. }
  destruct new as [|r0 new0] eqn:Hnew_eq; [done |]. rewrite <- Hnew_eq in *.
  eexists _, _, new. split_and!; [exact Hrun | done | lia |].
  replace (length metadatas) with (length new) by lia.
  apply written_documents; [lia |]. intros i r Hr. by destruct (Hdoc i r Hr).
Qed.

(** ** Statistics *)

Lemma stats_run tenant_id fault w :
  get_collection_stats tenant_id fault w =
  (Ok match fault with
      | Some e => StatsFailure ("Failed to get collection stats: " +:+ e)
      | None =>
          StatsSuccess tenant_id collection_name
            (length (filter (λ r, text_at "tenant_id" r = Some tenant_id) (rows w)))
      end, w).
Proof.
  unfold get_collection_stats, try_except, mbind, Py_bind, count_where.
  by destruct fault.
Qed.

Lemma ingested_row_text tenant_id r :
  ingested_row tenant_id r → text_at "tenant_id" r = Some tenant_id.
Proof. intros [Hr _]. unfold text_at. by rewrite Hr. Qed.

(** X12.  After an ingestion under tenant [A], by either entry point
    and whatever its outcome, [get_collection_stats] counts for [A] what
    it counted before plus the rows the ingestion wrote, and for every
    other tenant what it counted before. *)
Theorem stats_count_after_ingest (A B : string) w w' :
  ingest_call A w w' →
  ∃ before written,
    rows w' = rows w ++ written ∧
    get_collection_stats B None w = (Ok (StatsSuccess B collection_name before), w) ∧
    get_collection_stats B None w'
      = (Ok (StatsSuccess B collection_name
               (if decide (B = A) then before + length written else before)), w').
Proof.
  intros (new & Hrows & Hnew)%ingest_call_rows.
  eexists _, new. rewrite !stats_run. split_and!; [done | done |].
  rewrite Hrows, filter_app, length_app. do 3 f_equal.
  destruct (decide (B = A)) as [->|Hne].
  - rewrite (filter_all _ new); [done |].
    eapply Forall_impl; [done |]. intros r. apply ingested_row_text.
  - rewrite (filter_none _ new); [cbn; lia |].
    eapply Forall_impl; [done |]. intros r Hr%ingested_row_text. rewrite Hr. congruence.
Qed.

(** X13.  After [delete_documents] under tenant [T], whatever its
    outcome, the count of [get_collection_stats] has not grown for any
    tenant, is unchanged for every tenant other than [T], and has
    dropped for [T] by exactly the number of rows the table has lost. *)
Theorem stats_count_after_delete (T B : string) (document_ids : list string)
    (fault : option (nat * string)) w r w' :
  delete_documents T document_ids fault w = (r, w') →
  ∃ before after,
    get_collection_stats B None w = (Ok (StatsSuccess B collection_name before), w) ∧
    get_collection_stats B None w' = (Ok (StatsSuccess B collection_name after), w') ∧
    after ≤ before ∧
    (B ≠ T → after = before) ∧
    (B = T → before - after = length (rows w) - length (rows w')).
Proof.
  intros (processed & _ & Hrows & _)%delete_documents_spec.
  eexists _, _. rewrite !stats_run. split_and!; [done | done | ..]; rewrite Hrows.
  - rewrite list_filter_filter. apply filter_length_mono. tauto.
  - intros Hne. f_equal. rewrite list_filter_filter. apply list_filter_iff.
    intros row. split; [tauto |]. intros Hrow. split; [done |].
    apply spared_other_tenant. rewrite Hrow. congruence.
  - intros ->.
    rewrite (filter_length_split (λ row, text_at "tenant_id" row = Some T) (rows w)).
    rewrite (filter_length_split (λ row, text_at "tenant_id" row = Some T)
               (filter (λ row, spared T processed row = true) (rows w))).
    assert (Hframe :
      filter (λ row, ¬ text_at "tenant_id" row = Some T)
        (filter (λ row, spared T processed row = true) (rows w))
      = filter (λ row, ¬ text_at "tenant_id" row = Some T) (rows w)).
    { rewrite list_filter_filter. apply list_filter_iff. intros row.
      split; [tauto |]. intros Hrow. split; [done |]. by apply spared_other_tenant. }
    rewrite Hframe. lia.
Qed.

(** X14.  A successful query never reports more results than
    [get_collection_stats] counts for the tenant on the same table; a
    tenant whose count is 0 gets no document. *)
Theorem query_total_within_stats (tenant_id q : string) (top_k : Z) w
    tenant' q' docs total w' :
  query_knowledge_base tenant_id q top_k None w
    = (Ok (QuerySuccess tenant' q' docs total), w') →
  ∃ n,
    get_collection_stats tenant_id None w
      = (Ok (StatsSuccess tenant_id collection_name n), w) ∧
    total ≤ n ∧ (n = 0 → docs = []).
Proof.
  rewrite query_run. destruct (decide (top_k < 0)%Z) as [|Hk]; [done |].
  destruct (decide (bigint_max < top_k)%Z) as [|Hmax]; [done |].
  intros [= <- <- <- <- <-]. eexists. rewrite stats_run. split; [done |].
  assert (Hle : length (answer tenant_id q top_k (rows w))
                ≤ length (filter (λ r, text_at "tenant_id" r = Some tenant_id) (rows w))).
  { rewrite answer_length. etransitivity; [apply Nat.le_min_r |].
    unfold tenant_rows. apply filter_length_mono. intros r.
    unfold filter_matches, text_at. rewrite bool_decide_eq_true. by intros ->. }
  split; [done |]. intros Hn. rewrite Hn in Hle. apply nil_length_inv. lia.
Qed.

(** ** Deletion, exactly *)

Lemma delete_loop_run tenant_id doc_ids done w :
  delete_loop tenant_id doc_ids done None w
  = (Ok (), mkWorld (heap w) (next_loc w)
              (filter (λ row, spared tenant_id doc_ids row = true) (rows w))
              (uuids_drawn w) (clock_reads w)).
Proof.
  revert done w. induction doc_ids as [|d rest IH]; intros done [h n table u c].
  - cbn. rewrite filter_all; [done |]. by apply Forall_forall.
  - cbn [delete_loop]. unfold mbind, Py_bind, db_check, delete_where.
    cbn [heap next_loc rows uuids_drawn clock_reads mret Py_ret].
    rewrite IH. cbn [heap next_loc rows uuids_drawn clock_reads].
    do 2 f_equal. rewrite list_filter_filter. f_equal.
    apply list_filter_iff. intros row. unfold spared. cbn [forallb].
    rewrite andb_true_iff, negb_true_iff. tauto.
Qed.

Lemma delete_documents_run tenant_id doc_ids w :
  delete_documents tenant_id doc_ids None w
  = (Ok (DeleteSuccess tenant_id (length doc_ids)),
     mkWorld (heap w) (next_loc w)
       (filter (λ row, spared tenant_id doc_ids row = true) (rows w))
       (uuids_drawn w) (clock_reads w)).
Proof.
  unfold delete_documents, try_except, mbind, Py_bind, db_check.
  cbn [mret Py_ret]. by rewrite delete_loop_run.
Qed.

Lemma delete_loop_fault tenant_id doc_ids done n e w :
  done ≤ n → n < done + length doc_ids →
  delete_loop tenant_id doc_ids done (Some (n, e)) w
  = (Raise e, mkWorld (heap w) (next_loc w)
                (filter (λ row, spared tenant_id (take (n - done) doc_ids) row = true)
                   (rows w))
                (uuids_drawn w) (clock_reads w)).
Proof.
  revert done w. induction doc_ids as [|d rest IH]; intros done [h m table u c] Hlo Hhi.
  - cbn in Hhi. lia.
  - cbn [delete_loop]. unfold mbind, Py_bind, db_check.
    destruct (decide (n = done)) as [->|Hne].
    + cbn. rewrite Nat.sub_diag. cbn. rewrite filter_all; [done |]. by apply Forall_forall.
    + unfold delete_where. cbn [heap next_loc rows uuids_drawn clock_reads mret Py_ret].
      rewrite IH by (cbn in Hhi; lia). cbn [heap next_loc rows uuids_drawn clock_reads].
      replace (n - done) with (S (n - S done)) by lia. cbn [take].
      do 2 f_equal. rewrite list_filter_filter. f_equal.
      apply list_filter_iff. intros row. unfold spared. cbn [forallb].
      rewrite andb_true_iff, negb_true_iff. tauto.
Qed.

Lemma spared_no_match tenant_id doc_ids (table : list Row) :
  (∀ row id, row ∈ table → id ∈ doc_ids →
     text_at "tenant_id" row = Some tenant_id → text_at "doc_id" row ≠ Some id) →
  filter (λ row, spared tenant_id doc_ids row = true) table = table.
Proof.
  intros Hnone. apply filter_all, Forall_forall. intros row Hrow.
  apply spared_true. intros id Hid.
  destruct (delete_matches tenant_id id row) eqn:Hm; [| done].
  apply delete_matches_text in Hm as [Ht Hd]. by destruct (Hnone row id Hrow Hid Ht).
Qed.

(** X15.  [delete_documents] is idempotent: with a database that
    answers, a second call with the same arguments succeeds again, with
    the same [deleted_count], and changes nothing. *)
Theorem delete_documents_idempotent (tenant_id : string) (document_ids : list string) w :
  ∃ w1,
    delete_documents tenant_id document_ids None w
      = (Ok (DeleteSuccess tenant_id (length document_ids)), w1) ∧
    delete_documents tenant_id document_ids None w1
      = (Ok (DeleteSuccess tenant_id (length document_ids)), w1).
Proof.
  eexists. split; [apply delete_documents_run |].
  rewrite delete_documents_run. cbn [heap next_loc rows uuids_drawn clock_reads].
  by rewrite filter_idemp.
Qed.

(** X16.  [deleted_count] is the number of ids asked for, not of rows
    removed: when no row of the tenant carries one of the ids, the call
    still succeeds with [deleted_count = len(document_ids)] and leaves
    everything as it is. *)
Theorem delete_documents_counts_requests (tenant_id : string)
    (document_ids : list string) w :
  (∀ row id, row ∈ rows w → id ∈ document_ids →
     text_at "tenant_id" row = Some tenant_id → text_at "doc_id" row ≠ Some id) →
  delete_documents tenant_id document_ids None w
    = (Ok (DeleteSuccess tenant_id (length document_ids)), w).
Proof.
  intros Hnone. rewrite delete_documents_run, spared_no_match by done. by destruct w.
Qed.

(** X17.  Deleting the ids that an ingestion has returned removes
    everything it wrote.  After [ingest_documents] of at least one
    document without caller-supplied dictionaries, [delete_documents] with the returned
    [document_ids] leaves the table that the same deletion leaves
    without the ingestion; it is the table from before the ingestion
    when no row of the tenant carried one of these ids. *)
Theorem delete_undoes_ingest (tenant_id : string) (documents : list string)
    (ids : option (list string)) w :
  documents ≠ [] →
  length documents ≤ from_option (@length string) (length documents) ids →
  ∃ ids' w1 w2,
    ingest_documents tenant_id documents None ids None w
      = (Ok (IngestSuccess tenant_id collection_name (length documents) ids'), w1) ∧
    delete_documents tenant_id ids' None w1
      = (Ok (DeleteSuccess tenant_id (length ids')), w2) ∧
    rows w2 = rows (delete_documents tenant_id ids' None w).2 ∧
    ((∀ row id, row ∈ rows w → id ∈ ids' →
        text_at "tenant_id" row = Some tenant_id → text_at "doc_id" row ≠ Some id) →
     rows w2 = rows w).
Proof.
  intros Hdocs Hlen.
  destruct (ingest_documents_exact tenant_id documents None ids w Hlen)
    as (hc & nb & u & new & Hrun & Hlen_new & _ & Hmeta & _).
  set (ids' := default (uuid4 <$> seq (uuids_drawn w) (length documents)) ids) in *.
  specialize (Hrun None). cbn beta iota in Hrun.
  assert (Hsome : new ≠ []).
  { intros ->. cbn in Hlen_new. destruct documents; [done | cbn in Hlen_new; lia]. }
  destruct new as [|r0 new0] eqn:Hnew_eq; [done |]. rewrite <- Hnew_eq in *.
  eexists ids', _, _. split; [exact Hrun |].
  split; [apply delete_documents_run |].
  rewrite delete_documents_run. cbn [heap next_loc rows uuids_drawn clock_reads snd].
  assert (Hgone : filter (λ row, spared tenant_id ids' row = true) new = []).
  { apply filter_none, Forall_forall. intros r (i & Hr)%list_elem_of_lookup_1.
    destruct (Hmeta I i r Hr) as (id & Hid & Hm).
    intros Hs. rewrite spared_true in Hs.
    specialize (Hs id (list_elem_of_lookup_2 _ _ _ Hid)).
    assert (delete_matches tenant_id id r = true); [| congruence].
    apply delete_matches_text. unfold text_at. rewrite Hm.
    destruct (stamped_entries tenant_id id (utcnow_isoformat (clock_reads w + i))
                (caller_metadata w None i)) as (-> & -> & _). done. }
  rewrite filter_app, Hgone, app_nil_r. split; [done |].
  intros Hnone. by apply spared_no_match.
Qed.

(** X18.  After a [delete_documents] that the database has carried
    out, no query of that tenant returns a document whose [doc_id] is
    one of the deleted ids. *)
Theorem deleted_documents_are_not_returned (tenant_id : string)
    (document_ids : list string) w r1 w1 (q : string) (top_k : Z)
    (fault : option string) res w2 d id :
  delete_documents tenant_id document_ids None w = (r1, w1) →
  query_knowledge_base tenant_id q top_k fault w1 = (Ok res, w2) →
  d ∈ result_documents res → id ∈ document_ids →
  json_text <$> res_metadata d !! "doc_id" ≠ Some id.
Proof.
  rewrite delete_documents_run. intros [= <- <-].
  rewrite query_run. intros [= <- <-] Hd Hid.
  assert (Hans : d ∈ answer tenant_id q top_k
                       (filter (λ row, spared tenant_id document_ids row = true) (rows w))).
  { destruct fault as [e|]; cbn in Hd; [by apply elem_of_nil in Hd |].
    destruct (decide (top_k < 0)%Z); cbn in Hd; [by apply elem_of_nil in Hd |].
    destruct (decide (bigint_max < top_k)%Z); cbn in Hd;
      [by apply elem_of_nil in Hd | done]. }
  apply answer_elem in Hans as (row & Hrow & _ & -> & _).
  apply tenant_rows_elem in Hrow as [Ht Hrow].
  apply list_elem_of_filter in Hrow as [Hs _]. rewrite spared_true in Hs.
  specialize (Hs id Hid). intros Hdoc.
  assert (delete_matches tenant_id id row = true); [| congruence].
  apply delete_matches_text. unfold text_at. by rewrite Ht, Hdoc.
Qed.

(** X19.  Every deletion statement is committed on its own.  When the
    database fails after [n] statements, [delete_documents] reports the
    failure and the table is the one left by deleting the first [n] ids:
    what was deleted stays deleted, the remaining ids are untouched. *)
Theorem delete_documents_partial (tenant_id : string) (document_ids : list string)
    (n : nat) (e : string) w :
  n < length document_ids →
  ∃ w',
    delete_documents tenant_id document_ids (Some (n, e)) w
      = (Ok (DeleteFailure ("Failed to delete documents: " +:+ e)), w') ∧
    rows w' = rows (delete_documents tenant_id (take n document_ids) None w).2.
Proof.
  intros Hn. rewrite delete_documents_run.
  cbn [heap next_loc rows uuids_drawn clock_reads snd].
  unfold delete_documents, try_except, mbind, Py_bind, db_check.
  destruct (decide (n = 0)) as [->|Hne].
  - eexists. split; [done |]. cbn. rewrite filter_all; [done |]. by apply Forall_forall.
  - cbn [mret Py_ret]. rewrite delete_loop_fault by lia.
    eexists. split; [done |]. cbn. by rewrite Nat.sub_0_r.
Qed.

End service_contracts.

(** ** PDF ingestion *)

Section pdf_ingestion.
Context {env : Environment}.
Import RAGService.

Implicit Types (w : World) (h : gmap nat Metadata).

Lemma process_pdf_run pdf_path tenant_id additional_metadata clock pages :
  load_pdf pdf_path = Ok pages →
  DocumentProcessor.process_pdf pdf_path tenant_id additional_metadata clock
  = (if decide (DocumentProcessor.pieces pages = [])
     then Raise "division by zero"
     else Ok (DocumentProcessor.enrich_metadata
                (DocumentProcessor.chunk_documents pages true)
                tenant_id additional_metadata clock).1,
     clock + length (DocumentProcessor.pieces pages)).
Proof.
  intros Hload. unfold DocumentProcessor.process_pdf. rewrite Hload.
  destruct (enrich_metadata_spec (DocumentProcessor.chunk_documents pages true)
              tenant_id additional_metadata clock) as (Hclock & Hlen & _).
  pose proof (chunk_documents_page_contents pages true) as Hpc.
  apply (f_equal length) in Hpc. rewrite length_fmap in Hpc.
  destruct (DocumentProcessor.enrich_metadata _ _ _ _) as [enriched clock'].
  cbn [fst snd] in *. subst clock'. rewrite Hpc in *.
  destruct enriched as [|c rest]; cbn in Hlen.
  - rewrite decide_True; [done |]. apply nil_length_inv. lia.
  - rewrite decide_False; [done |]. intros Hnil. rewrite Hnil in Hlen. done.
Qed.

(** X10.  A PDF that cannot be loaded makes [ingest_pdf] return the
    failure "Failed to ingest PDF: " followed by the loader's message,
    whatever the state of the database; nothing is written, no
    identifier is drawn and the clock is not read. *)
Theorem ingest_pdf_load_failure (tenant_id pdf_path : string)
    (additional_metadata : option (list (string * pyval)))
    (fault : option (nat * string)) w (e : string) :
  load_pdf pdf_path = Raise e →
  ingest_pdf tenant_id pdf_path additional_metadata fault w
    = (Ok (IngestFailure ("Failed to ingest PDF: " +:+ e)), w).
Proof.
  intros Hload. unfold ingest_pdf, try_except, mbind, Py_bind, process_pdf.
  unfold DocumentProcessor.process_pdf. rewrite Hload. by destruct w.
Qed.

(** X11.  A PDF of which the splitter makes no chunk cannot be
    ingested: the closing log call of [process_pdf] divides by the
    number of chunks and raises, and [ingest_pdf] returns the failure
    "Failed to ingest PDF: division by zero", leaving everything as it
    is. *)
Theorem ingest_pdf_without_chunks (tenant_id pdf_path : string)
    (additional_metadata : option (list (string * pyval)))
    (fault : option (nat * string)) w (pages : list Document) :
  load_pdf pdf_path = Ok pages →
  DocumentProcessor.pieces pages = [] →
  DocumentProcessor.process_pdf pdf_path tenant_id additional_metadata (clock_reads w)
    = (Raise "division by zero", clock_reads w) ∧
  ingest_pdf tenant_id pdf_path additional_metadata fault w
    = (Ok (IngestFailure "Failed to ingest PDF: division by zero"), w).
Proof.
  intros Hload Hnone.
  assert (Hrun : DocumentProcessor.process_pdf pdf_path tenant_id additional_metadata
                   (clock_reads w) = (Raise "division by zero", clock_reads w)).
  { rewrite (process_pdf_run _ _ _ _ pages Hload), decide_True by done.
    rewrite Hnone. cbn. by rewrite Nat.add_0_r. }
  split; [done |].
  unfold ingest_pdf, try_except, mbind, Py_bind, process_pdf. rewrite Hrun.
  by destruct w.
Qed.

(** X9.  For a PDF that loads and gives at least one chunk, and a
    database that answers, [ingest_pdf] succeeds, reports the number of
    chunks with as many freshly drawn ids, and appends one row per
    chunk, in order.  Row [i] holds the text of chunk [i] and its
    embedding, the tenant of the call, the [i]-th drawn id as [doc_id]
    and the time of the second stamping as [ingested_at], whatever
    [additional_metadata] says under these keys; any other key of
    [additional_metadata] holds the value given there; failing that,
    [chunk_index] is [i], [chunk_total] is the number of chunks, and
    every further key is as in the page the chunk was cut from. *)
Theorem ingest_pdf_writes_chunks (tenant_id pdf_path : string)
    (additional_metadata : option (list (string * pyval))) w (pages : list Document) :
  load_pdf pdf_path = Ok pages →
  DocumentProcessor.pieces pages ≠ [] →
  ∃ w' new,
    ingest_pdf tenant_id pdf_path additional_metadata None w
      = (Ok (IngestSuccess tenant_id collection_name
               (length (DocumentProcessor.pieces pages))
               (uuid4 <$> seq (uuids_drawn w) (length (DocumentProcessor.pieces pages)))),
         w') ∧
    rows w' = rows w ++ new ∧
    document <$> new = DocumentProcessor.pieces pages ∧
    ∀ i r, new !! i = Some r →
      embedding r = embed (document r) ∧
      cmetadata r !! "tenant_id" = Some (VStr tenant_id) ∧
      cmetadata r !! "doc_id" = Some (VStr (uuid4 (uuids_drawn w + i))) ∧
      cmetadata r !! "ingested_at"
        = Some (VStr (utcnow_isoformat
                        (clock_reads w + length (DocumentProcessor.pieces pages) + i))) ∧
      (∀ k v, k ≠ "tenant_id" → k ≠ "doc_id" → k ≠ "ingested_at" →
         DocumentProcessor.dict (default [] additional_metadata) !! k = Some v →
         cmetadata r !! k = Some v) ∧
      (DocumentProcessor.dict (default [] additional_metadata) !! "chunk_index" = None →
         cmetadata r !! "chunk_index" = Some (VInt (Z.of_nat i))) ∧
      (DocumentProcessor.dict (default [] additional_metadata) !! "chunk_total" = None →
         cmetadata r !! "chunk_total"
           = Some (VInt (Z.of_nat (length (DocumentProcessor.pieces pages))))) ∧
      ∃ page, page ∈ pages ∧
        document r ∈ split_text (page_content page) ∧
        ∀ k, k ≠ "tenant_id" → k ≠ "doc_id" → k ≠ "ingested_at" →
          k ≠ "chunk_index" → k ≠ "chunk_total" →
          DocumentProcessor.dict (default [] additional_metadata) !! k = None →
          cmetadata r !! k = metadata page !! k.
Proof.
  intros Hload Hsome.
  set (n := length (DocumentProcessor.pieces pages)).
  set (chunks := (DocumentProcessor.enrich_metadata
                    (DocumentProcessor.chunk_documents pages true)
                    tenant_id additional_metadata (clock_reads w)).1).
  destruct (enrich_metadata_spec (DocumentProcessor.chunk_documents pages true)
              tenant_id additional_metadata (clock_reads w)) as (_ & Hlen & Hall).
  fold chunks in Hlen, Hall.
  pose proof (chunk_documents_page_contents pages true) as Hpc.
  assert (Hn0 : length (DocumentProcessor.chunk_documents pages true) = n).
  { subst n. by rewrite <- Hpc, length_fmap. }
  assert (Hn : length chunks = n) by lia.
  assert (Hcontents : page_content <$> chunks = DocumentProcessor.pieces pages).
  { rewrite <- Hpc. apply list_eq. intros i. rewrite !list_lookup_fmap.
    destruct (DocumentProcessor.chunk_documents pages true !! i) as [c|] eqn:Hc.
    - destruct (Hall i c Hc) as (out & -> & Hout & _). cbn. by rewrite Hout.
    - apply lookup_ge_None in Hc. rewrite <- Hlen in Hc.
      apply lookup_ge_None in Hc. by rewrite Hc. }
  destruct (for_each_alloc metadata chunks
              (mkWorld (heap w) (next_loc w) (rows w) (uuids_drawn w) (clock_reads w + n)))
    as (hb & Halloc & Hheap & _).
  cbn [heap next_loc rows uuids_drawn clock_reads] in Halloc, Hheap.
  set (wb := mkWorld hb (next_loc w + length chunks) (rows w) (uuids_drawn w)
               (clock_reads w + n)) in *.
  destruct (ingest_documents_exact tenant_id (page_content <$> chunks)
              (Some (seq (next_loc w) (length chunks))) None wb)
    as (hc & nb & u & new & Hrun & Hlen_new & Hdoc & Hmeta & _).
  { cbn. by rewrite length_fmap, length_seq. }
  cbn [from_option] in Hlen_new. rewrite length_fmap, length_seq, Nat.min_id in Hlen_new.
  assert (Hpos : 0 < n).
  { subst n. destruct (DocumentProcessor.pieces pages); [done | cbn; lia]. }
  assert (Hrun' :
    ingest_documents tenant_id (page_content <$> chunks)
      (Some (seq (next_loc w) (length chunks))) None None wb
    = (Ok (IngestSuccess tenant_id collection_name (length (page_content <$> chunks))
             (uuid4 <$> seq (uuids_drawn w) (length (page_content <$> chunks)))),
       mkWorld hc nb (rows w ++ new) u
         (clock_reads wb + length (seq (next_loc w) (length chunks))))).
  { rewrite (Hrun None). destruct new; [cbn in Hlen_new; lia | done]. }
  eexists _, new. split_and!.
  - unfold ingest_pdf, try_except, mbind, Py_bind, process_pdf.
    rewrite (process_pdf_run _ _ _ _ pages Hload), decide_False by done.
    fold chunks n. rewrite Halloc. fold wb. rewrite Hrun'.
    rewrite length_fmap, Hn. reflexivity.
  - done.
  - rewrite <- Hcontents. apply list_eq. intros i. rewrite !list_lookup_fmap.
    destruct (new !! i) as [r|] eqn:Hr; cbn.
    + destruct (Hdoc i r Hr) as [Hd _]. rewrite list_lookup_fmap in Hd.
      by rewrite Hd.
    + apply lookup_ge_None in Hr. rewrite Hlen_new in Hr.
      apply lookup_ge_None in Hr. by rewrite Hr.
  - intros i r Hr.
    assert (Hi : i < n) by (apply lookup_lt_Some in Hr; lia).
    destruct (Hdoc i r Hr) as [Hcontent Hemb].
    destruct (Hmeta (NoDup_seq _ _) i r Hr) as (id & Hid & Hm).
    cbn [default uuids_drawn wb clock_reads] in Hid, Hm.
    rewrite list_lookup_fmap, lookup_seq_lt in Hid by (rewrite length_fmap; lia).
    injection Hid as <-.
    unfold caller_metadata in Hm. cbn [heap wb] in Hm.
    rewrite lookup_seq_lt in Hm by lia. cbn [from_option] in Hm.
    destruct (chunk_documents_lookup pages i Hi)
      as (c0 & piece & Hc0 & Hpiece & Hpc0 & Hm0).
    destruct (Hall i c0 Hc0) as (out & Hout & Hpc_out & Hk).
    rewrite (Hheap i out Hout) in Hm.
    rewrite list_lookup_fmap, Hout in Hcontent. injection Hcontent as Hcontent.
    destruct (stamped_entries tenant_id (uuid4 (uuids_drawn w + i))
                (utcnow_isoformat (clock_reads w + n + i)) (metadata out))
      as (Ht & Hd & Ha & Hother).
    rewrite <- Hm in Ht, Hd, Ha, Hother.
    apply list_elem_of_lookup_2, split_documents_elem in Hpiece
      as (page & Hpage & Hin & Hpm).
    split_and!; [done | done | done | done | | | |].
    + intros k v Hk1 Hk2 Hk3 Hv. by rewrite Hother, Hk, decide_False, Hv.
    + intros Hnone. rewrite Hother, Hk by done. cbn. rewrite Hnone. cbn.
      rewrite Hm0. by rewrite lookup_insert_ne, lookup_insert_eq.
    + intros Hnone. rewrite Hother, Hk by done. cbn. rewrite Hnone. cbn.
      rewrite Hm0. by rewrite lookup_insert_eq.
    + exists page. split; [done |]. split.
      * by rewrite <- Hcontent, Hpc_out, Hpc0.
      * intros k Hk1 Hk2 Hk3 Hk4 Hk5 Hnone.
        rewrite Hother, Hk, decide_False, Hnone by done. cbn.
        rewrite decide_False by done. rewrite Hm0.
        by rewrite !lookup_insert_ne, Hpm.
Qed.

End pdf_ingestion.

(** * The processor singleton *)

Section singleton_properties.
Context {Processor : Type} (new_processor : Z → Z → outcome Processor).
Import DocumentProcessor.

Lemma get_document_processors_warm (calls : list (Z * Z)) (p : Processor) :
  get_document_processors new_processor calls (Some p)
  = ((λ _, Ok p) <$> calls, Some p).
Proof.
  induction calls as [|[cs co] rest IH]; [done |].
  cbn [get_document_processors get_document_processor]. by rewrite IH.
Qed.

(** X20.  [get_document_processor] constructs at most one processor:
    once a call has succeeded, every later call returns that processor
    and ignores its own [chunk_size] and [chunk_overlap]. *)
Theorem get_document_processor_singleton (chunk_size chunk_overlap : Z) (p : Processor)
    (calls : list (Z * Z)) :
  new_processor chunk_size chunk_overlap = Ok p →
  get_document_processors new_processor ((chunk_size, chunk_overlap) :: calls) None
    = (Ok p :: ((λ _, Ok p) <$> calls), Some p).
Proof.
  intros Hnew. cbn [get_document_processors get_document_processor].
  by rewrite Hnew, get_document_processors_warm.
Qed.

End singleton_properties.

(** * Further concrete runs *)

Section more_concrete_runs.
Import RAGService.
#[local] Existing Instance Sample.environment.

Lemma chunk_documents_preserves_metadata_witness :
  Sample.first_chunk ∈ DocumentProcessor.chunk_documents Sample.guide_pages true ∧
  ∃ d, d ∈ Sample.guide_pages ∧
    metadata Sample.first_chunk !! "page" = metadata d !! "page".
Proof.
  assert (Hchunks : DocumentProcessor.chunk_documents Sample.guide_pages true
                    = Sample.first_chunk
                      :: drop 1 (DocumentProcessor.chunk_documents Sample.guide_pages true))
    by (vm_compute; reflexivity).
  assert (Hin : Sample.first_chunk
                ∈ DocumentProcessor.chunk_documents Sample.guide_pages true).
  { rewrite Hchunks. by left. }
  split; [exact Hin |].
  destruct (chunk_documents_preserves_metadata Sample.guide_pages true Sample.first_chunk Hin)
    as (d & Hd & _ & Hkeys & _).
  exists d. split; [exact Hd |]. apply Hkeys; discriminate.
Defined.

Lemma ingest_documents_writes_witness :
  ∃ w' new,
    ingest_documents "A" ["alpha"; "beta"] None (Some ["d1"; "d2"]) None Sample.empty_world
      = (Ok (IngestSuccess "A" collection_name 2 ["d1"; "d2"]), w') ∧
    rows w' = rows Sample.empty_world ++ new ∧
    ∀ i r, new !! i = Some r →
      cmetadata r !! "doc_id" = VStr <$> ["d1"; "d2"] !! i.
Proof.
  assert (Hdocs : ["alpha"; "beta"] ≠ []) by discriminate.
  assert (Hms : (None : option (list nat)) ≠ Some []) by discriminate.
  assert (Hnd : from_option NoDup True (None : option (list nat))) by exact I.
  assert (Hlen : from_option (@length nat) (length ["alpha"; "beta"]) None
                 ≤ from_option (@length string) (length ["alpha"; "beta"])
                     (Some ["d1"; "d2"])) by (cbn; lia).
  destruct (ingest_documents_writes "A" ["alpha"; "beta"] None (Some ["d1"; "d2"])
              Sample.empty_world Hdocs Hms Hnd Hlen)
    as (ids' & w' & new & Hrun & Hids & Hrows & _ & Hall).
  cbn [default] in Hids. rewrite Hids in Hrun, Hall.
  exists w', new. split; [exact Hrun |]. split; [exact Hrows |].
  intros i r Hr. by destruct (Hall i r Hr) as (_ & _ & _ & ? & _).
Defined.

Lemma ingest_documents_stamps_caller_dictionaries_witness :
  NoDup [0; 1] ∧
  ∃ res w',
    ingest_documents "A" ["alpha"; "beta"] (Some [0; 1]) None
      (Some (0, "connection refused")) Sample.caller_world = (Ok res, w') ∧
    deref (heap w') 1 !! "tenant_id" = Some (VStr "A") ∧
    deref (heap w') 1 !! "lang" = deref (heap Sample.caller_world) 1 !! "lang".
Proof.
  assert (Hnd : NoDup [0; 1]).
  { refine (bool_decide_unpack _ _). vm_compute. exact I. }
  assert (Hlen : length [0; 1]
                 ≤ from_option (@length string) (length ["alpha"; "beta"]) None)
    by (cbn; lia).
  split; [exact Hnd |].
  destruct (ingest_documents_stamps_caller_dictionaries "A" ["alpha"; "beta"] [0; 1] None
              (Some (0, "connection refused")) Sample.caller_world Hnd Hlen)
    as (res & w' & Hrun & Hnew & _).
  exists res, w'. split; [exact Hrun |].
  destruct (Hnew 1 1 eq_refl) as (Ht & _ & _ & Hk).
  split; [exact Ht |]. apply Hk; discriminate.
Defined.

Lemma ingest_documents_index_error_witness :
  ∃ w',
    ingest_documents "A" ["alpha"; "beta"] None (Some ["d1"]) None Sample.empty_world
      = (Ok (IngestFailure "Failed to ingest documents: list index out of range"), w') ∧
    rows w' = rows Sample.empty_world.
Proof.
  assert (Hlen : from_option (@length string) (length ["alpha"; "beta"]) (Some ["d1"])
                 < from_option (@length nat) (length ["alpha"; "beta"]) None)
    by (cbn; lia).
  exact (ingest_documents_index_error "A" ["alpha"; "beta"] None (Some ["d1"]) None
           Sample.empty_world Hlen).
Defined.

Lemma ingest_documents_zip_truncates_witness :
  ∃ ids' w' new,
    ingest_documents "A" ["alpha"; "beta"; "gamma"] (Some [0; 1]) None None
      Sample.caller_world
      = (Ok (IngestSuccess "A" collection_name 3 ids'), w') ∧
    rows w' = rows Sample.caller_world ++ new ∧
    length new = 2 ∧
    document <$> new = ["alpha"; "beta"].
Proof.
  assert (Hms : [0; 1] ≠ []) by discriminate.
  assert (Hshort : length [0; 1] < length ["alpha"; "beta"; "gamma"]) by (cbn; lia).
  assert (Hlen : length [0; 1]
                 ≤ from_option (@length string) (length ["alpha"; "beta"; "gamma"]) None)
    by (cbn; lia).
  exact (ingest_documents_zip_truncates "A" ["alpha"; "beta"; "gamma"] [0; 1] None
           Sample.caller_world Hms Hshort Hlen).
Defined.

Lemma sample_ingest_call : ingest_call "A" Sample.empty_world Sample.world_A.
Proof.
  apply (call_ingest_documents "A" Sample.empty_world Sample.world_A
           ["alpha"; "beta"] None (Some ["d1"; "d2"]) None
           (ingest_documents "A" ["alpha"; "beta"] None (Some ["d1"; "d2"]) None
              Sample.empty_world).1).
  vm_compute. reflexivity.
Defined.

Lemma stats_count_after_ingest_witness :
  ∃ before written,
    rows Sample.world_A = rows Sample.empty_world ++ written ∧
    get_collection_stats "A" None Sample.empty_world
      = (Ok (StatsSuccess "A" collection_name before), Sample.empty_world) ∧
    get_collection_stats "A" None Sample.world_A
      = (Ok (StatsSuccess "A" collection_name (before + length written)), Sample.world_A).
Proof.
  exact (stats_count_after_ingest "A" "A" Sample.empty_world Sample.world_A
           sample_ingest_call).
Defined.

Lemma stats_count_after_delete_witness :
  ∃ before after,
    get_collection_stats "B" None Sample.world_AB
      = (Ok (StatsSuccess "B" collection_name before), Sample.world_AB) ∧
    get_collection_stats "B" None Sample.world_less
      = (Ok (StatsSuccess "B" collection_name after), Sample.world_less) ∧
    after = before.
Proof.
  destruct (stats_count_after_delete "A" "B" ["d1"] None Sample.world_AB _ _
              (surjective_pairing _)) as (before & after & Hb & Ha & _ & Hsame & _).
  exists before, after. split; [exact Hb |]. split; [exact Ha |].
  apply Hsame. discriminate.
Defined.

Lemma query_total_within_stats_witness :
  ∃ n,
    get_collection_stats "B" None Sample.world_AB
      = (Ok (StatsSuccess "B" collection_name n), Sample.world_AB) ∧
    2 ≤ n.
Proof.
  assert (Hrun : query_knowledge_base "B" "page one" 2 None Sample.world_AB
                 = (Ok (QuerySuccess "B" "page one"
                          (answer "B" "page one" 2 (rows Sample.world_AB)) 2),
                    Sample.world_AB)) by (vm_compute; reflexivity).
  destruct (query_total_within_stats _ _ _ _ _ _ _ _ _ Hrun) as (n & Hn & Hle & _).
  exists n. split; [exact Hn | exact Hle].
Defined.

Lemma delete_documents_counts_requests_witness :
  delete_documents "C" ["d1"; "d2"] None Sample.world_AB
    = (Ok (DeleteSuccess "C" 2), Sample.world_AB).
Proof.
  assert (Hall : Forall (λ row, text_at "tenant_id" row ≠ Some "C")
                   (rows Sample.world_AB)).
  { refine (bool_decide_unpack _ _). vm_compute. exact I. }
  apply (delete_documents_counts_requests "C" ["d1"; "d2"] Sample.world_AB).
  intros row id Hrow _ Ht. rewrite Forall_forall in Hall. by destruct (Hall row Hrow).
Defined.

Lemma delete_undoes_ingest_witness :
  ∃ ids' w1 w2,
    ingest_documents "A" ["gamma"; "delta"] None None None Sample.world_AB
      = (Ok (IngestSuccess "A" collection_name 2 ids'), w1) ∧
    delete_documents "A" ids' None w1 = (Ok (DeleteSuccess "A" (length ids')), w2) ∧
    rows w2 = rows (delete_documents "A" ids' None Sample.world_AB).2.
Proof.
  assert (Hdocs : ["gamma"; "delta"] ≠ []) by discriminate.
  assert (Hlen : length ["gamma"; "delta"]
                 ≤ from_option (@length string) (length ["gamma"; "delta"]) None)
    by (cbn; lia).
  destruct (delete_undoes_ingest "A" ["gamma"; "delta"] None Sample.world_AB Hdocs Hlen)
    as (ids' & w1 & w2 & Hrun & Hdel & Hrows & _).
  exists ids', w1, w2. split; [exact Hrun |]. split; [exact Hdel | exact Hrows].
Defined.

Lemma deleted_documents_are_not_returned_witness :
  Sample.beta_result ∈ answer "A" "alpha" 5 (rows Sample.world_less) ∧
  content Sample.beta_result = "beta" ∧
  json_text <$> res_metadata Sample.beta_result !! "doc_id" ≠ Some "d1".
Proof.
  assert (Hanswer : answer "A" "alpha" 5 (rows Sample.world_less) = [Sample.beta_result])
    by (vm_compute; reflexivity).
  assert (Hin : Sample.beta_result ∈ answer "A" "alpha" 5 (rows Sample.world_less)).
  { rewrite Hanswer. by left. }
  assert (Hrun : query_knowledge_base "A" "alpha" 5 None Sample.world_less
                 = (Ok (QuerySuccess "A" "alpha"
                          (answer "A" "alpha" 5 (rows Sample.world_less)) 1),
                    Sample.world_less)) by (vm_compute; reflexivity).
  assert (Hid : "d1" ∈ ["d1"]) by (by left).
  split; [exact Hin |]. split; [vm_compute; reflexivity |].
  exact (deleted_documents_are_not_returned "A" ["d1"] Sample.world_AB _ _
           "alpha" 5 None _ _ Sample.beta_result "d1"
           (surjective_pairing _) Hrun Hin Hid).
Defined.

Lemma delete_documents_partial_witness :
  ∃ w',
    delete_documents "A" ["d1"; "d2"] (Some (1, "connection lost")) Sample.world_AB
      = (Ok (DeleteFailure ("Failed to delete documents: " +:+ "connection lost")), w') ∧
    rows w' = rows Sample.world_less.
Proof.
  assert (Hn : 1 < length ["d1"; "d2"]) by (cbn; lia).
  exact (delete_documents_partial "A" ["d1"; "d2"] 1 "connection lost"
           Sample.world_AB Hn).
Defined.

Lemma ingest_pdf_writes_chunks_witness :
  load_pdf "guide.pdf" = Ok Sample.guide_pages ∧
  DocumentProcessor.pieces Sample.guide_pages ≠ [] ∧
  ∃ w' new,
    ingest_pdf "B" "guide.pdf" (Some [("source", VStr "guide")]) None Sample.world_A
      = (Ok (IngestSuccess "B" collection_name 4
               (uuid4 <$> seq (uuids_drawn Sample.world_A) 4)), w') ∧
    rows w' = rows Sample.world_A ++ new ∧
    document <$> new = DocumentProcessor.pieces Sample.guide_pages.
Proof.
  assert (Hload : load_pdf "guide.pdf" = Ok Sample.guide_pages) by reflexivity.
  assert (Hsome : DocumentProcessor.pieces Sample.guide_pages ≠ []) by discriminate.
  split; [exact Hload |]. split; [exact Hsome |].
  destruct (ingest_pdf_writes_chunks "B" "guide.pdf" (Some [("source", VStr "guide")])
              Sample.world_A Sample.guide_pages Hload Hsome)
    as (w' & new & Hrun & Hrows & Hdocs & _).
  exists w', new. split; [exact Hrun |]. split; [exact Hrows | exact Hdocs].
Defined.

Lemma ingest_pdf_load_failure_witness :
  ingest_pdf "B" "missing.pdf" None None Sample.world_A
    = (Ok (IngestFailure ("Failed to ingest PDF: "
                          +:+ "PDF file not found: missing.pdf")), Sample.world_A).
Proof.
  assert (Hload : load_pdf "missing.pdf" = Raise "PDF file not found: missing.pdf")
    by reflexivity.
  exact (ingest_pdf_load_failure "B" "missing.pdf" None None Sample.world_A _ Hload).
Defined.

End more_concrete_runs.

Section scanned_runs.
Import RAGService.
#[local] Existing Instance Sample.scanned_environment.

Lemma ingest_pdf_without_chunks_witness :
  load_pdf "scan.pdf" = Ok [mkDocument "" {["page" := VInt 0]}] ∧
  DocumentProcessor.pieces [mkDocument "" {["page" := VInt 0]}] = [] ∧
  ingest_pdf "A" "scan.pdf" None None Sample.scanned_world
    = (Ok (IngestFailure "Failed to ingest PDF: division by zero"), Sample.scanned_world).
Proof.
  assert (Hload : load_pdf "scan.pdf" = Ok [mkDocument "" {["page" := VInt 0]}])
    by reflexivity.
  assert (Hnone : DocumentProcessor.pieces [mkDocument "" {["page" := VInt 0]}] = [])
    by reflexivity.
  split; [exact Hload |]. split; [exact Hnone |].
  exact (proj2 (ingest_pdf_without_chunks "A" "scan.pdf" None None Sample.scanned_world
                  _ Hload Hnone)).
Defined.

End scanned_runs.

Section singleton_runs.
Import DocumentProcessor.

Lemma get_document_processor_singleton_witness :
  get_document_processors Sample.new_processor [(1000, 200); (500, 50); (100, 0)]%Z None
    = ([Ok (1000, 200); Ok (1000, 200); Ok (1000, 200)]%Z, Some (1000, 200)%Z).
Proof.
  assert (Hnew : Sample.new_processor 1000 200 = Ok (1000, 200)%Z) by reflexivity.
  exact (get_document_processor_singleton Sample.new_processor 1000 200 (1000, 200)%Z
           [(500, 50); (100, 0)]%Z Hnew).
Defined.

End singleton_runs.
